(** * peakbagger-bulk-uploader: a shallow embedding of [main.go]

    The development follows the Go packages the program is built from:
    - [gpx] holds the track model of github.com/tkrajina/gpxgo that the
      program reads (points, segments, tracks, nullable elevations);
    - [peakbagger] holds the catalog entities (peaks, ascents);
    - the top level is package [main]: [ToGPX], [ToTrackBounds],
      [UploadTrack], [UploadFile], [LoadHistory], [SaveHistory], [Run].
    The embedding is that of [main.go]; the second source file is an
    earlier revision of it, with the same loop body in [ToTrackBounds], the
    same [ToGPX] and the same peak matching.

    Conventions.
    - A Go [float64] is represented by an integer ([float64 := Z], a
      fixed-point reading of the value).  The program only compares such
      values with [>] and [<] and reads the default value [0]; rounding
      and NaN are outside this model.
    - A Go [time.Time] is represented by its offset from the zero instant in
      nanoseconds, so [IsZero t] is [t = 0]; a [time.Duration] is a count of
      nanoseconds that fits 64 bits, and [Sub] saturates as Go's does.
    - A Go [error] is its message, [nil] is [None].
    - A pointer obtained from a fresh allocation is a pair of the
      allocation number and the value stored there, so that two equal
      points met at different loop iterations stay distinguishable. *)

From Stdlib Require Import ZArith String Ascii List Lia.
From stdpp Require Import base option list sorting gmap strings.

Definition float64 : Type := Z.
Definition error : Type := option string.

(** A Go function returning [(T, error)]. *)
Inductive Result (A : Type) : Type :=
| Ok (a : A)
| Err (msg : string).
Arguments Ok {A} a.
Arguments Err {A} msg.

(** ** Package time *)
Module time.
Definition Time : Type := Z.
Definition Duration : Type := Z.
Definition IsZero (t : Time) : bool := (t =? 0)%Z.

(** The least and the greatest [Duration], an [int64]. *)
Definition minDuration : Duration := (- 2 ^ 63)%Z.
Definition maxDuration : Duration := (2 ^ 63 - 1)%Z.

(** [Time.Sub] (times without monotonic clock reading): the difference
    [t - u], or the least or the greatest [Duration] when the difference
    does not fit. *)
Definition Sub (t u : Time) : Duration :=
  if (t - u <? minDuration)%Z then minDuration
  else if (maxDuration <? t - u)%Z then maxDuration
  else (t - u)%Z.

(** A difference of times that a [Duration] can hold. *)
Definition fits (d : Z) : Prop := (minDuration <= d <= maxDuration)%Z.
End time.

(** ** Package gpx (the parts [main.go] uses) *)
Module gpx.

  (** [NullableFloat64]: [SetNull] resets the stored number to the default
      [0], so a null value always reads [Value() = 0]. *)
Definition NullableFloat64 : Type := option float64.
Definition NotNull (n : NullableFloat64) : bool :=
    match n with Some _ => true | None => false end.
Definition Value (n : NullableFloat64) : float64 :=
    match n with Some v => v | None => 0%Z end.

Record GPXPoint : Type := mkPoint {
    Latitude : float64;
    Longitude : float64;
    Elevation : NullableFloat64;
    Timestamp : time.Time
  }.

Record GPXTrackSegment : Type := mkSegment { Points : list GPXPoint }.

Record GPXTrack : Type := mkTrack {
    Name : string;
    Segments : list GPXTrackSegment
  }.

Record GPX : Type := mkGPX { Tracks : list GPXTrack }.

Record TimeBounds : Type := mkTimeBounds {
    StartTime : time.Time;
    EndTime : time.Time
  }.

End gpx.

(** ** Pointers to points

    [point := &gpx.GPXPoint{}; *point = p] allocates a fresh cell for every
    loop iteration.  [addr] is the number of the iteration that allocated
    the cell, counted over the whole track. *)
Record PointPtr : Type := mkPtr { addr : nat; deref : gpx.GPXPoint }.

Record TrackBounds : Type := mkTrackBounds {
  Start : option PointPtr;
  Highest : option PointPtr;
  End_ : option PointPtr
}.

(** ** ToTrackBounds *)

(** The body of the inner loop, for the point [p] met at iteration [k]. *)
Definition scan_point (tb : TrackBounds) (k : nat) (p : gpx.GPXPoint) : TrackBounds :=
  let point := mkPtr k p in
  let start := match Start tb with None => Some point | s => s end in
  let end_ := Some point in
  let highest := match Highest tb with None => point | Some h => h end in
  let highest :=
    if gpx.NotNull (gpx.Elevation (deref point))
       && (gpx.Value (gpx.Elevation (deref point))
           >? gpx.Value (gpx.Elevation (deref highest)))%Z
    then point else highest in
  mkTrackBounds start (Some highest) end_.

(** [for _, p := range segment.Points]; the state carries the iteration
    counter next to [tb]. *)
Fixpoint scan_points (st : TrackBounds * nat) (ps : list gpx.GPXPoint) : TrackBounds * nat :=
  match ps with
  | [] => st
  | p :: ps' => scan_points (scan_point (fst st) (snd st) p, S (snd st)) ps'
  end.

(** [for _, segment := range t.Segments]. *)
Fixpoint scan_segments (st : TrackBounds * nat) (ss : list gpx.GPXTrackSegment) : TrackBounds * nat :=
  match ss with
  | [] => st
  | s :: ss' => scan_segments (scan_points st (gpx.Points s)) ss'
  end.

Definition empty_bounds : TrackBounds := mkTrackBounds None None None.

(** The value of [tb] when the loops are over. *)
Definition scan (t : gpx.GPXTrack) : TrackBounds :=
  fst (scan_segments (empty_bounds, 0) (gpx.Segments t)).

Definition ToTrackBounds (t : gpx.GPXTrack) : Result TrackBounds :=
  let tb := scan t in
  match Highest tb with
  | None => Err "missing points"
  | Some h =>
      if negb (gpx.NotNull (gpx.Elevation (deref h))) then Err "missing elevation"
      else if time.IsZero (gpx.Timestamp (deref h)) then Err "missing timestamp"
      else Ok tb
  end.

(** All points of a track, in scan order. *)
Definition all_points (t : gpx.GPXTrack) : list gpx.GPXPoint :=
  concat (map gpx.Points (gpx.Segments t)).

(** ** Package track (peakbagger-tools) *)
Module track.
Record Bounds : Type := mkBounds {
  MinLat : float64;
  MaxLat : float64;
  MinLng : float64;
  MaxLng : float64
}.
End track.

(** ** Package peakbagger (peakbagger-tools) *)
Module peakbagger.
Record Peak : Type := mkPeak {
  PeakID : Z;
  Name : string;
  Latitude : float64;
  Longitude : float64
}.

(** The field [PeakID] of an ascent is [AscentPeakID] here, the name being
    taken by the field of [Peak]. *)
Record Ascent : Type := mkAscent {
  AscentPeakID : Z;
  Date : time.Time;
  Gpx : gpx.GPX;
  TripReport : string;
  TimeUp : time.Duration;
  TimeDown : time.Duration;
  StartElevation : float64;
  EndElevation : float64
}.

(** What [ListAscents] returns: the climber's recorded ascents, each a peak
    and a date. *)
Definition AscentList : Type := list (Z * time.Time).

(** Modelled from the spec: [AscentList.Has] lives in the peakbagger-tools
    package, which is not part of this repository.  It is true iff an
    existing ascent has the same peak id and exactly the same date. *)
Definition Has (l : AscentList) (peakID : Z) (date : time.Time) : bool :=
  existsb (fun a => (fst a =? peakID)%Z && (snd a =? date)%Z) l.
End peakbagger.

(** ** Strings and paths *)

Definition lower_ascii (c : ascii) : ascii :=
  let n := nat_of_ascii c in
  if (65 <=? n)%nat && (n <=? 90)%nat then ascii_of_nat (n + 32) else c.

(** [strings.ToLower] on a string of ASCII characters: the letters A to Z
    are lowered.  (On other strings Go also lowers letters outside ASCII;
    the properties that depend on it are stated for ASCII extensions.) *)
Fixpoint ToLower (s : string) : string :=
  match s with
  | EmptyString => EmptyString
  | String c s' => String (lower_ascii c) (ToLower s')
  end.

(** [ext_aux p] is [(sep, e)]: whether a separator occurs in [p], and the
    suffix of the last element of [p] that starts at its last dot. *)
Fixpoint ext_aux (p : string) : bool * string :=
  match p with
  | EmptyString => (false, EmptyString)
  | String c rest =>
      let '(sep, e) := ext_aux rest in
      if sep then (true, e)
      else if negb (String.eqb e EmptyString) then (false, e)
      else if Ascii.eqb c "/"%char then (true, EmptyString)
      else if Ascii.eqb c "."%char then (false, String c rest)
      else (false, EmptyString)
  end.

(** [path.Ext] (and [filepath.Ext] where the separator is the slash): the
    suffix beginning at the final dot of the final element, empty when that
    element has no dot. *)
Definition Ext (p : string) : string := snd (ext_aux p).

(** Maps file extension to gpsbabel input format string. *)
Definition extToGPSBabelFormat : gmap string string :=
  <[".gdb" := "gdb"]> (<[".gpx" := "gpx"]> (<[".kml" := "kml"]> (<[".kmz" := "kmz"]> ∅))).

(** ** The world the program runs in *)

Record FileInfo : Type := mkFileInfo { fiName : string; IsDir : bool }.

Record History : Type := mkHistory {
  Error : string;
  Added : time.Time
}.

(** The state of [<directory>/history.json]. *)
Inductive HistoryFile : Type :=
| Absent
| Unreadable (msg : string)
| Corrupt (msg : string)
| Document (m : gmap string History).

(** What the program did to its surroundings, oldest event first.  The
    two [EvCall...] events are marks left on entry of [UploadFile] and
    [UploadTrack]; [EvWarnPeaks] is the [log.Warnf] of the peak matcher (the
    [log.Infof] lines are left out). *)
Inductive Event : Type :=
| EvCallUploadFile (filename : string)
| EvCallUploadTrack (name : string)
| EvTempFile (handle : option string)
| EvGpsbabel (format input output : string)
| EvReadFile (name : string)
| EvRemove (name : string)
| EvFindPeaks (b : track.Bounds)
| EvWarnPeaks (n : nat)
| EvListAscents
| EvAddAscent (a : peakbagger.Ascent)
| EvSaveHistory.

Record World : Type := mkWorld {
  trace : list Event;
  tmpfiles : gset string;
  history_json : HistoryFile
}.

(** The command-line flags. *)
Record Flags : Type := mkFlags {
  inputFile : string;
  inputDirectory : string;
  dryRun : bool;
  retry : bool
}.

(** What the program does not decide itself.  Every answer of the
    surroundings may depend on all that happened before (the trace). *)
Record Env : Type := mkEnv {
  (* fmt, path, time *)
  Quote : string -> string;                       (* the verb %q *)
  FormatTime : time.Time -> string;               (* the verb %v on a time *)
  path_Join : string -> string -> string;
  time_Now : list Event -> time.Time;
  Sprintf_TripReport : time.Time -> string;
  (* os, ioutil, exec *)
  ioutil_TempFile : list Event -> option string * error;
  gpsbabel_Run : list Event -> string -> string -> string -> error;
  ioutil_ReadFile : list Event -> string -> Result string;
  ioutil_ReadDir : list Event -> string -> Result (list FileInfo);
  ioutil_WriteFile : list Event -> error;
  (* gpx *)
  gpx_ParseBytes : string -> Result gpx.GPX;
  gpx_Distance2D : float64 -> float64 -> float64 -> float64 -> bool -> float64;
  gpx_TimeBounds : gpx.GPXTrack -> gpx.TimeBounds;
  (* sort *)
  sort_Slice : list peakbagger.Peak -> (peakbagger.Peak -> peakbagger.Peak -> bool)
               -> list peakbagger.Peak;
  (* track, peakbagger *)
  Bounds_Extend : track.Bounds -> track.Bounds;
  Login : list Event -> Result Z;
  FindPeaks : list Event -> track.Bounds -> Result (list peakbagger.Peak);
  ListAscents : list Event -> Result peakbagger.AscentList;
  AddAscent : list Event -> peakbagger.Ascent -> Result Z
}.

(** ** Computations: state passing, with panics *)

Inductive Outcome (A : Type) : Type :=
| Return (a : A)
| Panic (msg : string).
Arguments Return {A} a.
Arguments Panic {A} msg.

Definition M (A : Type) : Type := World -> Outcome A * World.

Definition ret {A : Type} (a : A) : M A := fun w => (Return a, w).

Definition bind {A B : Type} (m : M A) (k : A -> M B) : M B :=
  fun w =>
    match m w with
    | (Return a, w') => k a w'
    | (Panic msg, w') => (Panic msg, w')
    end.

Definition panic {A : Type} (msg : string) : M A := fun w => (Panic msg, w).

Notation "'let*' x ':=' c1 'in' c2" := (bind c1 (fun x => c2))
  (at level 10, x pattern, c1 at level 100, c2 at level 200).

Definition get_trace : M (list Event) := fun w => (Return (trace w), w).

Definition emit (e : Event) : M unit :=
  fun w => (Return tt, mkWorld (trace w ++ [e]) (tmpfiles w) (history_json w)).

(** [defer]: [cleanup] runs when [body] is over, also when it panicked. *)
Definition defer {A : Type} (cleanup : M unit) (body : M A) : M A :=
  fun w =>
    match body w with
    | (Return a, w') => (Return a, snd (cleanup w'))
    | (Panic msg, w') => (Panic msg, snd (cleanup w'))
    end.

Definition nil_dereference : string := "invalid memory address or nil pointer dereference".

(** ** Package main *)

Record Uploader : Type := mkUploader {
  FilenameHistory : gmap string History
}.

(** [main]'s way out: a normal return, or [log.Fatalf]. *)
Inductive Exit : Type :=
| ExitOK
| Fatal (msg : string).

Definition HistoryFilename : string := "history.json".

(** The test of the batch loop on the history of a file name:
    [hist, ok := u.FilenameHistory[name]; ok && (hist.Error == "" || !*retry)]. *)
Definition shouldSkip (h : gmap string History) (name : string) (retryFailures : bool) : bool :=
  match h !! name with
  | Some hist => String.eqb (Error hist) "" || negb retryFailures
  | None => false
  end.

Section Program.

Variable env : Env.
Variable flags : Flags.

(** *** Calls to the surroundings *)

Definition TempFile : M (option string * error) :=
  fun w =>
    let r := ioutil_TempFile env (trace w) in
    (Return r,
     mkWorld (trace w ++ [EvTempFile (fst r)])
             (match fst r with Some f => {[ f ]} ∪ tmpfiles w | None => tmpfiles w end)
             (history_json w)).

Definition cmd_Run (format input output : string) : M error :=
  fun w =>
    (Return (gpsbabel_Run env (trace w) format input output),
     mkWorld (trace w ++ [EvGpsbabel format input output]) (tmpfiles w) (history_json w)).

Definition ReadFile (name : string) : M (Result string) :=
  fun w =>
    (Return (ioutil_ReadFile env (trace w) name),
     mkWorld (trace w ++ [EvReadFile name]) (tmpfiles w) (history_json w)).

Definition os_Remove (name : string) : M unit :=
  fun w =>
    (Return tt,
     mkWorld (trace w ++ [EvRemove name]) (tmpfiles w ∖ {[ name ]}) (history_json w)).

Definition client_FindPeaks (b : track.Bounds) : M (Result (list peakbagger.Peak)) :=
  fun w =>
    (Return (FindPeaks env (trace w) b),
     mkWorld (trace w ++ [EvFindPeaks b]) (tmpfiles w) (history_json w)).

Definition client_ListAscents : M (Result peakbagger.AscentList) :=
  fun w =>
    (Return (ListAscents env (trace w)),
     mkWorld (trace w ++ [EvListAscents]) (tmpfiles w) (history_json w)).

Definition client_AddAscent (a : peakbagger.Ascent) : M (Result Z) :=
  fun w =>
    (Return (AddAscent env (trace w) a),
     mkWorld (trace w ++ [EvAddAscent a]) (tmpfiles w) (history_json w)).

Definition Now : M time.Time := fun w => (Return (time_Now env (trace w)), w).

(** *** ToGPX

    Converts a provided file (of any supported GPS format) into a temporary
    GPX file.  The caller is responsible for deleting the temporary file. *)
Definition ToGPX (inputFile : string) : M (string * error) :=
  let ext := ToLower (Ext inputFile) in
  match extToGPSBabelFormat !! ext with
  | None =>
      ret ("", Some ("file extension " +:+ Quote env ext +:+ " is not not a known GPS format"))
  | Some format =>
      let* (of_, err) := TempFile in
      match of_ with
      | None => panic nil_dereference                     (* of.Name() on a nil handle *)
      | Some outputFile =>
          (* of.Close() *)
          match err with
          | Some e => ret ("", Some ("failed to create temp gpx output file: " +:+ e))
          | None =>
              let* r := cmd_Run format inputFile outputFile in
              match r with
              | Some e =>
                  (* [cmd.CombinedOutput()] on a command that already ran gives no output *)
                  ret (outputFile, Some ("gpsbabel conversion failed " +:+ e +:+ ": "))
              | None => ret (outputFile, None)
              end
          end
      end
  end.

(** *** UploadTrack

    The receiver [u] of [UploadTrack] and [UploadFile] is only used for its
    catalog client, whose answers are those of the surroundings. *)

(** The [less] closure handed to [sort.Slice]: by distance to [highest]. *)
Definition closer (highest : gpx.GPXPoint) (pi pj : peakbagger.Peak) : bool :=
  (gpx_Distance2D env (peakbagger.Latitude pi) (peakbagger.Longitude pi)
                  (gpx.Latitude highest) (gpx.Longitude highest) true
   <? gpx_Distance2D env (peakbagger.Latitude pj) (peakbagger.Longitude pj)
                     (gpx.Latitude highest) (gpx.Longitude highest) true)%Z.

(** The peak matcher: the search, the sort, and the choice of [peaks[0]]. *)
Definition matchPeak (highest : gpx.GPXPoint) : M (Result peakbagger.Peak) :=
  let bounds := track.mkBounds (gpx.Latitude highest) (gpx.Latitude highest)
                               (gpx.Longitude highest) (gpx.Longitude highest) in
  (* Allow 1000 of search area for peaks *)
  let bounds := Bounds_Extend env bounds in
  let* r := client_FindPeaks bounds in
  match r with
  | Err e => ret (Err ("find peaks " +:+ e))
  | Ok peaks =>
      (* Sort by closest to our highest point *)
      let peaks := sort_Slice env peaks (closer highest) in
      if (length peaks =? 0)%nat then ret (Err "no peaks found")
      else
        let* _ := (if (1 <? length peaks)%nat then emit (EvWarnPeaks (length peaks))
                   else ret tt) in
        match peaks with
        | peak :: _ => ret (Ok peak)
        | [] => panic "index out of range"
        end
  end.

Definition buildAscent (t : gpx.GPXTrack) (start highest end_ : gpx.GPXPoint)
    (peak : peakbagger.Peak) (now : time.Time) : peakbagger.Ascent :=
  let times := gpx_TimeBounds env t in
  peakbagger.mkAscent
    (peakbagger.PeakID peak)
    (gpx.Timestamp highest)
    (gpx.mkGPX [t])
    (Sprintf_TripReport env now)
    (time.Sub (gpx.Timestamp highest) (gpx.StartTime times))
    (time.Sub (gpx.EndTime times) (gpx.Timestamp highest))
    (gpx.Value (gpx.Elevation start))
    (gpx.Value (gpx.Elevation end_)).

Definition UploadTrack (t : gpx.GPXTrack) : M error :=
  let* _ := emit (EvCallUploadTrack (gpx.Name t)) in
  match ToTrackBounds t with
  | Err e => ret (Some ("highest point " +:+ e))
  | Ok tb =>
      match Start tb, Highest tb, End_ tb with
      | Some start, Some highest, Some end_ =>
          let* r := matchPeak (deref highest) in
          match r with
          | Err e => ret (Some e)
          | Ok peak =>
              let* r := client_ListAscents in
              match r with
              | Err e => ret (Some ("list ascents " +:+ e))
              | Ok ascents =>
                  if peakbagger.Has ascents (peakbagger.PeakID peak)
                                    (gpx.Timestamp (deref highest))
                  then ret (Some ("Already have ascent logged for "
                                  +:+ Quote env (peakbagger.Name peak) +:+ " on "
                                  +:+ FormatTime env (gpx.Timestamp (deref highest))))
                  else
                    let* now := Now in
                    let ascent := buildAscent t (deref start) (deref highest) (deref end_)
                                              peak now in
                    if dryRun flags then ret None
                    else
                      let* r := client_AddAscent ascent in
                      match r with
                      | Err e => ret (Some ("failed to add ascent " +:+ e))
                      | Ok _ => ret None
                      end
              end
          end
      | _, _, _ => panic nil_dereference
      end
  end.

(** *** UploadFile *)

(** [for _, t := range g.Tracks], with the accumulated error. *)
Fixpoint upload_tracks (ts : list gpx.GPXTrack) (errAcc : error) : M error :=
  match ts with
  | [] => ret errAcc
  | t :: ts' =>
      let* err := UploadTrack t in
      match err with
      | Some e =>
          let err := e +:+ " processing track " +:+ Quote env (gpx.Name t) in
          match errAcc with
          | None => upload_tracks ts' (Some err)
          | Some acc => upload_tracks ts' (Some (acc +:+ ", " +:+ err))
          end
      | None => upload_tracks ts' errAcc
      end
  end.

Definition UploadFile (filename : string) : M error :=
  let* _ := emit (EvCallUploadFile filename) in
  let* (gf, err) := ToGPX filename in
  match err with
  | Some e => ret (Some ("ToGPX failed " +:+ e))
  | None =>
      defer (os_Remove gf)
        (let* b := ReadFile gf in
         match b with
         | Err e => ret (Some ("read gpx file " +:+ e))
         | Ok b =>
             match gpx_ParseBytes env b with
             | Err e => ret (Some ("parse gpx bytes " +:+ e))
             | Ok g => upload_tracks (gpx.Tracks g) None
             end
         end)
  end.

(** *** The history document

    [json.Unmarshal] adds the entries of the document to the map the
    uploader holds.  [json.MarshalIndent] cannot fail on an uploader; a
    failed [ioutil.WriteFile] is taken to leave the document as it was. *)

Definition LoadHistory (u : Uploader) : M (Uploader * error) :=
  fun w =>
    match history_json w with
    | Absent => (Return (u, None), w)                       (* os.ErrNotExist *)
    | Unreadable msg => (Return (u, Some msg), w)
    | Corrupt msg => (Return (u, Some msg), w)              (* json.Unmarshal fails *)
    | Document m => (Return (mkUploader (m ∪ FilenameHistory u), None), w)
    end.

Definition SaveHistory (u : Uploader) : M error :=
  fun w =>
    match ioutil_WriteFile env (trace w) with
    | Some e =>
        (Return (Some e), mkWorld (trace w ++ [EvSaveHistory]) (tmpfiles w) (history_json w))
    | None =>
        (Return None,
         mkWorld (trace w ++ [EvSaveHistory]) (tmpfiles w) (Document (FilenameHistory u)))
    end.

(** *** Run *)

(** [for _, fi := range files]. *)
Fixpoint run_files (u : Uploader) (files : list FileInfo) : M (Uploader * error) :=
  match files with
  | [] => ret (u, None)
  | fi :: rest =>
      if IsDir fi then run_files u rest
      else
        match extToGPSBabelFormat !! Ext (fiName fi) with
        | None => run_files u rest                          (* Skip unsupported formats *)
        | Some _ =>
            if shouldSkip (FilenameHistory u) (fiName fi) (retry flags)
            then run_files u rest
            else
              let* err := UploadFile (path_Join env (inputDirectory flags) (fiName fi)) in
              let v := match err with Some e => e | None => "" end in
              let* now := Now in
              let u := mkUploader (<[fiName fi := mkHistory v now]> (FilenameHistory u)) in
              let* err := SaveHistory u in
              match err with
              | Some e => ret (u, Some e)
              | None => run_files u rest
              end
        end
  end.

Definition Run (u : Uploader) : M (Uploader * error) :=
  if negb (String.eqb (inputFile flags) "") then
    let* err := UploadFile (inputFile flags) in ret (u, err)
  else
    let* tr := get_trace in
    match ioutil_ReadDir env tr (inputDirectory flags) with
    | Err e => ret (u, Some e)
    | Ok files =>
        let* (u, err) := LoadHistory u in
        match err with
        | Some e => ret (u, Some e)
        | None => run_files u files
        end
    end.

Definition NewUploader : M (Result Uploader) :=
  let* tr := get_trace in
  match Login env tr with
  | Err e => ret (Err ("peakbagger login " +:+ e))
  | Ok climberID => ret (Ok (mkUploader ∅))
  end.

Definition main : M Exit :=
  let* r := NewUploader in
  match r with
  | Err e => ret (Fatal e)
  | Ok u =>
      let* (_, err) := Run u in
      match err with
      | Some e => ret (Fatal e)
      | None => ret ExitOK
      end
  end.

End Program.

(** ** The earlier revision of the program

    The second source file is an earlier revision of [main.go]: its
    [ToTrackBounds] scans all tracks of a document, and its [Upload]
    handles documents of exactly one track.  [ToGPX] and the peak matching
    are those of [main.go]. *)
Module rev0.

(** [for _, track := range g.Tracks]. *)
Fixpoint scan_tracks (st : TrackBounds * nat) (ts : list gpx.GPXTrack) : TrackBounds * nat :=
  match ts with
  | [] => st
  | t :: ts' => scan_tracks (scan_segments st (gpx.Segments t)) ts'
  end.

Definition scan (g : gpx.GPX) : TrackBounds :=
  fst (scan_tracks (empty_bounds, 0) (gpx.Tracks g)).

Definition ToTrackBounds (g : gpx.GPX) : Result TrackBounds :=
  let tb := scan g in
  match Highest tb with
  | None => Err "missing points"
  | Some h =>
      if negb (gpx.NotNull (gpx.Elevation (deref h))) then Err "missing elevation"
      else if time.IsZero (gpx.Timestamp (deref h)) then Err "missing timestamp"
      else Ok tb
  end.

Section Program.

Variable env : Env.
Variable flags : Flags.

Definition buildAscent (g : gpx.GPX) (t : gpx.GPXTrack) (start highest end_ : gpx.GPXPoint)
    (peak : peakbagger.Peak) (now : time.Time) : peakbagger.Ascent :=
  let times := gpx_TimeBounds env t in
  peakbagger.mkAscent
    (peakbagger.PeakID peak)
    (gpx.Timestamp highest)
    g
    (Sprintf_TripReport env now)
    (time.Sub (gpx.Timestamp highest) (gpx.StartTime times))
    (time.Sub (gpx.EndTime times) (gpx.Timestamp highest))
    (gpx.Value (gpx.Elevation start))
    (gpx.Value (gpx.Elevation end_)).

Definition Upload (filename : string) : M error :=
  let* (gf, err) := ToGPX env filename in
  match err with
  | Some e => ret (Some ("ToGPX failed " +:+ e))
  | None =>
      defer (os_Remove gf)
        (let* b := ReadFile env gf in
         match b with
         | Err e => ret (Some ("read gpx file " +:+ e))
         | Ok b =>
             match gpx_ParseBytes env b with
             | Err e => ret (Some ("parse gpx bytes " +:+ e))
             | Ok g =>
                 (* TODO we should just process each track individually! *)
                 if negb (length (gpx.Tracks g) =? 1)%nat then ret (Some "too many tracks")
                 else
                   match gpx.Tracks g with
                   | [] => panic "index out of range"
                   | t :: _ =>
                       match ToTrackBounds g with
                       | Err e => ret (Some ("highest point " +:+ e))
                       | Ok tb =>
                           match Start tb, Highest tb, End_ tb with
                           | Some start, Some highest, Some end_ =>
                               let* r := matchPeak env (deref highest) in
                               match r with
                               | Err e => ret (Some e)
                               | Ok peak =>
                                   let* r := client_ListAscents env in
                                   match r with
                                   | Err e => ret (Some ("list ascents " +:+ e))
                                   | Ok ascents =>
                                       if peakbagger.Has ascents (peakbagger.PeakID peak)
                                                         (gpx.Timestamp (deref highest))
                                       then ret (Some ("Already have ascent logged for "
                                                       +:+ Quote env (peakbagger.Name peak)
                                                       +:+ " on "
                                                       +:+ FormatTime env
                                                             (gpx.Timestamp (deref highest))))
                                       else
                                         let* now := Now env in
                                         let ascent :=
                                           buildAscent g t (deref start) (deref highest)
                                                       (deref end_) peak now in
                                         if dryRun flags then ret None
                                         else
                                           let* r := client_AddAscent env ascent in
                                           match r with
                                           | Err e => ret (Some ("failed to add ascent " +:+ e))
                                           | Ok _ => ret None
                                           end
                                   end
                               end
                           | _, _, _ => panic nil_dereference
                           end
                       end
                   end
             end
         end)
  end.

End Program.

End rev0.

(** ** The vocabulary of the properties *)

(** A point carries a present elevation; the number its elevation reads as. *)
Definition present (p : gpx.GPXPoint) : Prop := gpx.NotNull (gpx.Elevation p) = true.
Definition elev (p : gpx.GPXPoint) : Z := gpx.Value (gpx.Elevation p).

(** The spec's Highest, in the spec's words: the point at index [i] carries
    a present elevation, no point carrying a present elevation is higher,
    and every earlier point carrying one is strictly lower. *)
Definition spec_highest (ps : list gpx.GPXPoint) (i : nat) : Prop :=
  exists p, ps !! i = Some p /\ present p /\
    (forall j q, ps !! j = Some q -> present q -> (elev q <= elev p)%Z) /\
    (forall j q, (j < i)%nat -> ps !! j = Some q -> present q -> (elev q < elev p)%Z).

(** What the scan has established when it has gone through the points
    [ps] and is in the state [st]: Start is the first point, End the last,
    and Highest a point that no point with a present elevation exceeds,
    that every earlier such point is strictly below, and that carries a
    present elevation unless it is the first point. *)
Definition scanned (ps : list gpx.GPXPoint) (st : TrackBounds * nat) : Prop :=
  snd st = length ps /\
  (ps = [] -> fst st = empty_bounds) /\
  (forall p0, ps !! 0%nat = Some p0 ->
      exists h,
        Start (fst st) = Some (mkPtr 0 p0) /\
        Highest (fst st) = Some h /\
        (exists pl, End_ (fst st) = Some (mkPtr (length ps - 1) pl)
                    /\ ps !! (length ps - 1)%nat = Some pl) /\
        ps !! addr h = Some (deref h) /\
        (present (deref h) \/ addr h = 0%nat) /\
        (forall j q, ps !! j = Some q -> present q -> (elev q <= elev (deref h))%Z) /\
        (forall j q, (j < addr h)%nat -> ps !! j = Some q -> present q ->
                     (elev q < elev (deref h))%Z)).

(** The events added to the trace between the worlds [w] and [w']. *)
Definition events_since (w w' : World) : list Event :=
  drop (length (trace w)) (trace w').

(** The files [UploadFile] was called on, and the tracks [UploadTrack] was
    called on, in order. *)
Definition file_calls (evs : list Event) : list string :=
  omap (fun e => match e with EvCallUploadFile f => Some f | _ => None end) evs.

Definition track_calls (evs : list Event) : list string :=
  omap (fun e => match e with EvCallUploadTrack n => Some n | _ => None end) evs.

(** Events of the calls to the surroundings: neither a mark of [UploadFile]
    or [UploadTrack], nor a write of the history document. *)
Definition quiet (e : Event) : Prop :=
  match e with
  | EvCallUploadFile _ | EvCallUploadTrack _ | EvSaveHistory => False
  | _ => True
  end.

(** [m] appends events that satisfy [P] to the trace, and leaves the
    history document as it is. *)
Definition appends {A : Type} (P : Event -> Prop) (m : M A) : Prop :=
  forall w, exists evs,
    trace (snd (m w)) = trace w ++ evs /\ Forall P evs /\
    history_json (snd (m w)) = history_json w.

(** What [UploadTrack] submits carries the elevation values of the first
    and of the last point of the track. *)
Definition submits_bounds (t : gpx.GPXTrack) (e : Event) : Prop :=
  match e with
  | EvAddAscent a =>
      exists first last_,
        head (all_points t) = Some first /\ last (all_points t) = Some last_ /\
        peakbagger.StartElevation a = gpx.Value (gpx.Elevation first) /\
        peakbagger.EndElevation a = gpx.Value (gpx.Elevation last_)
  | _ => True
  end.

(** The distance that [closer] compares. *)
Definition dist (env : Env) (highest : gpx.GPXPoint) (p : peakbagger.Peak) : float64 :=
  gpx_Distance2D env (peakbagger.Latitude p) (peakbagger.Longitude p)
                 (gpx.Latitude highest) (gpx.Longitude highest) true.

(** The box that [UploadTrack] searches. *)
Definition search_bounds (env : Env) (highest : gpx.GPXPoint) : track.Bounds :=
  Bounds_Extend env (track.mkBounds (gpx.Latitude highest) (gpx.Latitude highest)
                                    (gpx.Longitude highest) (gpx.Longitude highest)).

(** What [sort.Slice] promises: the slice holds the same elements, and no
    element is [less] than one before it.  It does not promise to keep equal
    elements in their order. *)
Definition sort_Slice_post (less : peakbagger.Peak -> peakbagger.Peak -> bool)
    (xs ys : list peakbagger.Peak) : Prop :=
  xs ≡ₚ ys /\ StronglySorted (fun a b => less b a = false) ys.

(** The choice of the claim: the nearest candidate, and among several
    nearest ones the first in catalog order. *)
Fixpoint first_nearest (d : peakbagger.Peak -> Z) (peaks : list peakbagger.Peak)
    : option peakbagger.Peak :=
  match peaks with
  | [] => None
  | p :: rest =>
      match first_nearest d rest with
      | Some q => if (d q <? d p)%Z then Some q else Some p
      | None => Some p
      end
  end.

(** The world once the catalog was searched, and once the warning about
    several candidates was logged. *)
Definition after_search (env : Env) (highest : gpx.GPXPoint) (w : World) : World :=
  mkWorld (trace w ++ [EvFindPeaks (search_bounds env highest)]) (tmpfiles w) (history_json w).

Definition after_warning (n : nat) (w : World) : World :=
  mkWorld (trace w ++ [EvWarnPeaks n]) (tmpfiles w) (history_json w).

(** [m] returns, from every world: it never panics. *)
Definition total {A : Type} (m : M A) : Prop :=
  forall w, exists a w', m w = (Return a, w').

(** [attempts ts w errs w']: [UploadTrack] ran on every track of [ts], in
    order, from the world [w] to the world [w'], each run starting where
    the one before ended, and [errs] are their results. *)
Inductive attempts (env : Env) (flags : Flags)
  : list gpx.GPXTrack -> World -> list error -> World -> Prop :=
| attempts_nil w : attempts env flags [] w [] w
| attempts_cons t ts w e w1 es w2 :
    UploadTrack env flags t w = (Return e, w1) ->
    attempts env flags ts w1 es w2 ->
    attempts env flags (t :: ts) w (e :: es) w2.

(** The message of a failed track. *)
Definition track_failure (env : Env) (t : gpx.GPXTrack) (e : error) : option string :=
  match e with
  | Some msg => Some (msg +:+ " processing track " +:+ Quote env (gpx.Name t))
  | None => None
  end.

(** The failures of the tracks, in track order. *)
Fixpoint track_failures (env : Env) (ts : list gpx.GPXTrack) (errs : list error)
    : list string :=
  match ts, errs with
  | t :: ts', e :: errs' =>
      match track_failure env t e with
      | Some m => m :: track_failures env ts' errs'
      | None => track_failures env ts' errs'
      end
  | _, _ => []
  end.

(** Messages joined with a comma and a space; no message is no error. *)
Fixpoint join_errors (acc : error) (msgs : list string) : error :=
  match msgs with
  | [] => acc
  | m :: msgs' =>
      join_errors (match acc with None => Some m | Some a => Some (a +:+ ", " +:+ m) end) msgs'
  end.

(** Events from inside [UploadFile]: no mark of another file, no write of
    the history document. *)
Definition inner (e : Event) : Prop :=
  match e with
  | EvCallUploadFile _ | EvSaveHistory => False
  | _ => True
  end.

(** The files the batch loop looks at: regular files whose extension is
    a key of [extToGPSBabelFormat]. *)
Definition eligible (fi : FileInfo) : bool :=
  negb (IsDir fi) && bool_decide (is_Some (extToGPSBabelFormat !! Ext (fiName fi))).

(** The uploader once the result [err] of a file was recorded in the
    world [w], and the world once the history document was written (or the
    write failed, the document staying [doc]). *)
Definition record (env : Env) (u : Uploader) (name : string) (err : error) (w : World)
    : Uploader :=
  mkUploader (<[name := mkHistory (default "" err) (time_Now env (trace w))]>
                (FilenameHistory u)).

Definition after_save (w : World) (doc : HistoryFile) : World :=
  mkWorld (trace w ++ [EvSaveHistory]) (tmpfiles w) doc.


(** The ascents handed to [AddAscent], in order. *)
Definition submissions (evs : list Event) : list peakbagger.Ascent :=
  omap (fun e => match e with EvAddAscent a => Some a | _ => None end) evs.

(** The events that come from outside [UploadTrack]. *)
Definition outer (e : Event) : Prop :=
  match e with
  | EvCallUploadFile _ | EvTempFile _ | EvGpsbabel _ _ _ | EvReadFile _ | EvRemove _
  | EvSaveHistory => True
  | _ => False
  end.

(** [m] appends events that together satisfy [Q] to the trace. *)
Definition grows {A : Type} (Q : list Event -> Prop) (m : M A) : Prop :=
  forall w, exists evs, trace (snd (m w)) = trace w ++ evs /\ Q evs.

(** The history a run in directory mode works with, once loaded. *)
Definition loaded_history (u : Uploader) (w : World) : gmap string History :=
  match history_json w with
  | Document m => m ∪ FilenameHistory u
  | _ => FilenameHistory u
  end.

(** What one call of [UploadTrack] adds to the trace. *)
Definition track_events (env : Env) (flags : Flags) (t : gpx.GPXTrack) (w : World)
    : list Event :=
  events_since w (snd (UploadTrack env flags t w)).

(** What [UploadTrack] submits for the track [t]: a record that holds this
    track alone, dated at the timestamp of the point the analysis returned
    as Highest (a point of the track that carries an elevation and whose
    time is not the zero time), its times up and down being [Time.Sub] of
    that date and the time bounds of the track. *)
Definition submits_summit (env : Env) (t : gpx.GPXTrack) (e : Event) : Prop :=
  match e with
  | EvAddAscent a =>
      exists tb h,
        ToTrackBounds t = Ok tb /\ Highest tb = Some h /\
        all_points t !! addr h = Some (deref h) /\ present (deref h) /\
        peakbagger.Gpx a = gpx.mkGPX [t] /\
        peakbagger.Date a = gpx.Timestamp (deref h) /\
        time.IsZero (peakbagger.Date a) = false /\
        peakbagger.TimeUp a
          = time.Sub (peakbagger.Date a) (gpx.StartTime (gpx_TimeBounds env t)) /\
        peakbagger.TimeDown a
          = time.Sub (gpx.EndTime (gpx_TimeBounds env t)) (peakbagger.Date a)
  | _ => True
  end.

(** A string of ASCII characters only. *)
Definition ascii_only (s : string) : bool :=
  forallb (fun c => (nat_of_ascii c <? 128)%nat) (list_ascii_of_string s).

(** The world once [UploadFile] has read the converted file [gf] and its
    deferred [os.Remove] has run, no track having been attempted. *)
Definition after_read_and_remove (gf : string) (w : World) : World :=
  mkWorld (trace w ++ [EvReadFile gf; EvRemove gf]) (tmpfiles w ∖ {[ gf ]}) (history_json w).

(** ** Concrete surroundings, for the examples *)

(** Insertion sort, the new element going before its equals: it keeps
    the order of equal elements (a stable sort). *)
Fixpoint insert_before {A : Type} (less : A -> A -> bool) (x : A) (l : list A) : list A :=
  match l with
  | [] => [x]
  | y :: l' => if less y x then y :: insert_before less x l' else x :: y :: l'
  end.

Definition stable_sort {A : Type} (l : list A) (less : A -> A -> bool) : list A :=
  foldr (insert_before less) [] l.

(** [if data.Less(i, i-6) { data.Swap(i, i-6) }]. *)
Definition exchange_gap {A : Type} (less : A -> A -> bool) (l : list A) (i : nat) : list A :=
  match l !! i, l !! (i - 6)%nat with
  | Some x, Some y => if less x y then <[(i - 6)%nat := x]> (<[i := y]> l) else l
  | _, _ => l
  end.

(** A sort that meets the promise of [sort.Slice] and is not stable: one
    Shell sort pass with gap 6, then insertion sort.  This is how
    [sort.Slice] treated the slices of at most 12 elements before Go 1.19. *)
Definition short_slice_sort {A : Type} (l : list A) (less : A -> A -> bool) : list A :=
  stable_sort (foldl (exchange_gap less) l (seq 6 (length l - 6))) less.

(** A stand-in for the great-circle distance: it is 0 exactly between
    equal coordinates. *)
Definition grid_distance (lat1 lng1 lat2 lng2 : float64) (haversine : bool) : float64 :=
  (Z.abs (lat1 - lat2) + Z.abs (lng1 - lng2))%Z.

(** A stand-in for [GPXTrack.TimeBounds]: the times of the first and of
    the last point. *)
Definition track_TimeBounds (t : gpx.GPXTrack) : gpx.TimeBounds :=
  gpx.mkTimeBounds
    (match head (all_points t) with Some p => gpx.Timestamp p | None => 0%Z end)
    (match last (all_points t) with Some p => gpx.Timestamp p | None => 0%Z end).

(** Surroundings that answer the same way whatever happened before. *)
Definition fixed_env
    (tempfile : option string * error) (babel : string -> error) (doc : Result gpx.GPX)
    (dir : Result (list FileInfo)) (write : error)
    (peaks : Result (list peakbagger.Peak))
    (sorter : list peakbagger.Peak -> (peakbagger.Peak -> peakbagger.Peak -> bool)
              -> list peakbagger.Peak)
    (ascents : Result peakbagger.AscentList) : Env :=
  mkEnv
    (fun s => "'" +:+ s +:+ "'")
    (fun _ => "T")
    (fun d n => d +:+ "/" +:+ n)
    (fun tr => (1000 + Z.of_nat (length tr))%Z)
    (fun _ => "Uploaded by peakbagger-bulk-uploader")
    (fun _ => tempfile)
    (fun _ format _ _ => babel format)
    (fun _ _ => Ok "<gpx/>")
    (fun _ _ => dir)
    (fun _ => write)
    (fun _ => doc)
    grid_distance
    track_TimeBounds
    sorter
    (fun b => track.mkBounds (track.MinLat b - 1) (track.MaxLat b + 1)
                             (track.MinLng b - 1) (track.MaxLng b + 1))%Z
    (fun _ => Ok 7%Z)
    (fun _ _ => peaks)
    (fun _ => ascents)
    (fun _ _ => Ok 1%Z).

(** The temporary file, a world in which nothing has happened yet and no
    history document exists, and the flags of a run over the directory
    [tracks]. *)
Definition tmp_gpx : string := "/tmp/peakbagger-bulk-uploader.1.gpx".

Definition world0 : World := mkWorld [] ∅ Absent.

Definition dir_flags (retryFailures : bool) : Flags := mkFlags "" "tracks" false retryFailures.

(** Points at one place; the spec's example of a tie, elevations
    [100, 200, 200, 150]. *)
Definition pt (e : option Z) (ts : Z) : gpx.GPXPoint :=
  gpx.mkPoint 44%Z (-71)%Z e ts.

Definition tie_track : gpx.GPXTrack :=
  gpx.mkTrack "tie"
    [gpx.mkSegment [pt (Some 100) 1; pt (Some 200) 2];
     gpx.mkSegment [pt (Some 200) 3; pt (Some 150) 4]]%Z.

(** A track below sea level whose first point has no elevation. *)
Definition basin_track : gpx.GPXTrack :=
  gpx.mkTrack "basin" [gpx.mkSegment [pt None 1; pt (Some (-50)) 2]]%Z.

(** Surroundings in which creating the temporary file fails. *)
Definition env_no_tempfile : Env :=
  fixed_env (None, Some "no space left on device") (fun _ => None) (Ok (gpx.mkGPX []))
            (Ok []) None (Ok []) stable_sort (Ok []).

(** A catalog with one peak in range, and a track whose first and last
    points carry no elevation. *)
Definition rainier : peakbagger.Peak :=
  peakbagger.mkPeak 2296%Z "Mount Rainier" 44%Z (-71)%Z.

Definition open_ended_track : gpx.GPXTrack :=
  gpx.mkTrack "open" [gpx.mkSegment [pt None 1; pt (Some 2000) 2; pt None 3]]%Z.

Definition env_one_peak : Env :=
  fixed_env (Some tmp_gpx, None) (fun _ => None) (Ok (gpx.mkGPX [open_ended_track]))
            (Ok []) None (Ok [rainier]) stable_sort (Ok []).

(** Two peaks at the same distance from the points of [pt], and a
    catalog answer of seven peaks in which they are the nearest. *)
Definition north_peak : peakbagger.Peak := peakbagger.mkPeak 101%Z "North Twin" 45%Z (-71)%Z.
Definition south_peak : peakbagger.Peak := peakbagger.mkPeak 102%Z "South Twin" 43%Z (-71)%Z.
Definition far_peak : peakbagger.Peak := peakbagger.mkPeak 100%Z "Far Dome" 53%Z (-71)%Z.
Definition knob (n : Z) : peakbagger.Peak := peakbagger.mkPeak n "Knob" 49%Z (-71)%Z.

Definition knobs : list peakbagger.Peak := [knob 103; knob 104; knob 105; knob 106]%Z.

Definition seven_peaks : list peakbagger.Peak :=
  far_peak :: (north_peak :: knobs) ++ [south_peak].

Definition env_seven_peaks : Env :=
  fixed_env (Some tmp_gpx, None) (fun _ => None) (Ok (gpx.mkGPX []))
            (Ok []) None (Ok seven_peaks) short_slice_sort (Ok []).

Definition env_twins_stable : Env :=
  fixed_env (Some tmp_gpx, None) (fun _ => None) (Ok (gpx.mkGPX []))
            (Ok []) None (Ok [north_peak; south_peak]) stable_sort (Ok []).

(** Surroundings in which the conversion by gpsbabel fails. *)
Definition env_babel_fails : Env :=
  fixed_env (Some tmp_gpx, None) (fun _ => Some "exit status 1") (Ok (gpx.mkGPX []))
            (Ok []) None (Ok []) stable_sort (Ok []).

(** A directory with two track files, and surroundings in which the
    history document cannot be written. *)
Definition two_files : list FileInfo :=
  [mkFileInfo "a.gpx" false; mkFileInfo "b.gpx" false].

Definition env_disk_full : Env :=
  fixed_env (Some tmp_gpx, None) (fun _ => None) (Ok (gpx.mkGPX [tie_track]))
            (Ok two_files) (Some "disk full") (Ok [rainier]) stable_sort (Ok []).

(** A directory with a subdirectory, a file that is no track, and two
    track files; gpsbabel fails on the kml file. *)
Definition mixed_files : list FileInfo :=
  [mkFileInfo "2019" true; mkFileInfo "a.gpx" false; mkFileInfo "b.kml" false;
   mkFileInfo "notes.txt" false].

Definition env_kml_fails : Env :=
  fixed_env (Some tmp_gpx, None)
            (fun format => if String.eqb format "kml" then Some "exit status 1" else None)
            (Ok (gpx.mkGPX [tie_track]))
            (Ok mixed_files) None (Ok [rainier]) stable_sort (Ok []).

(** The first run over that directory, from an empty world. *)
Definition first_run : Outcome (Uploader * error) * World :=
  Run env_kml_fails (dir_flags false) (mkUploader ∅) world0.

Definition first_run_history : Uploader :=
  match fst first_run with
  | Return (u, _) => u
  | Panic _ => mkUploader ∅
  end.

(** The surroundings [env], except that reading a file fails. *)
Definition with_unreadable_files (msg : string) (env : Env) : Env :=
  mkEnv (Quote env) (FormatTime env) (path_Join env) (time_Now env) (Sprintf_TripReport env)
        (ioutil_TempFile env) (gpsbabel_Run env) (fun _ _ => Err msg) (ioutil_ReadDir env)
        (ioutil_WriteFile env) (gpx_ParseBytes env) (gpx_Distance2D env) (gpx_TimeBounds env)
        (sort_Slice env) (Bounds_Extend env) (Login env) (FindPeaks env) (ListAscents env)
        (AddAscent env).

(** * Properties *)

(** ** The track analyzer *)

Lemma scan_points_app st ps qs :
  scan_points st (ps ++ qs) = scan_points (scan_points st ps) qs.
Proof.
  revert st. induction ps as [|p ps IH]; intros st; simpl; [done|]. apply IH.
Qed.

Lemma scan_segments_flat st ss :
  scan_segments st ss = scan_points st (concat (map gpx.Points ss)).
Proof.
  revert st. induction ss as [|s ss IH]; intros st; simpl; [done|].
  rewrite scan_points_app. apply IH.
Qed.

Lemma scan_flat t : scan t = fst (scan_points (empty_bounds, 0%nat) (all_points t)).
Proof. unfold scan, all_points. by rewrite scan_segments_flat. Qed.

Lemma scanned_step ps st p :
  scanned ps st -> scanned (ps ++ [p]) (scan_point (fst st) (snd st) p, S (snd st)).
Proof.
  intros (Hk & Hnil & Hinv). split; [|split].
  { simpl. rewrite length_app. simpl. lia. }
  { intros E. by destruct ps. }
  assert (Hlen1 : (length (ps ++ [p]) - 1)%nat = length ps)
    by (rewrite length_app; simpl; lia).
  assert (Hlast : (ps ++ [p]) !! length ps = Some p).
  { rewrite lookup_app_r by lia. by rewrite Nat.sub_diag. }
  intros p0' Hp0'. simpl. rewrite Hlen1.
  destruct (ps !! 0%nat) as [p0|] eqn:Hp0.
  - (* a later point *)
    rewrite (lookup_app_l_Some _ _ _ _ Hp0) in Hp0'. injection Hp0' as <-.
    destruct (Hinv p0 eq_refl) as (h & HS & HH & (pl & HE & Hpl) & Hh & Hpres & Hmax & Hfirst).
    assert (Hlt : (addr h < length ps)%nat) by (by eapply lookup_lt_Some).
    unfold scan_point. rewrite HS, HH. simpl.
    destruct (gpx.NotNull (gpx.Elevation p)
              && (gpx.Value (gpx.Elevation p) >? gpx.Value (gpx.Elevation (deref h)))%Z)
      eqn:Hcmp.
    + (* the new point becomes Highest *)
      apply andb_true_iff in Hcmp as [Hp Hgt]. apply Z.gtb_lt in Hgt.
      exists (mkPtr (snd st) p). simpl. rewrite Hk.
      repeat split; eauto.
      * intros j q Hj Hq. apply lookup_app_Some in Hj as [Hj | [_ Hj]].
        -- specialize (Hmax j q Hj Hq). unfold elev in *. lia.
        -- destruct (j - length ps)%nat; simpl in Hj; [|done].
           injection Hj as <-. lia.
      * intros j q Hjlt Hj Hq. rewrite lookup_app_l in Hj by done.
        specialize (Hmax j q Hj Hq). unfold elev in *. lia.
    + (* Highest is kept *)
      exists h. rewrite Hk.
      repeat split; eauto.
      * by rewrite lookup_app_l.
      * intros j q Hj Hq. apply lookup_app_Some in Hj as [Hj | [_ Hj]]; [by eapply Hmax|].
        destruct (j - length ps)%nat; simpl in Hj; [|done].
        injection Hj as <-. unfold present in Hq. rewrite Hq in Hcmp. simpl in Hcmp.
        unfold elev.
        destruct (Z.gtb_spec (gpx.Value (gpx.Elevation p)) (gpx.Value (gpx.Elevation (deref h))));
          [done | lia].
      * intros j q Hjlt Hj Hq. rewrite lookup_app_l in Hj by lia. by eapply Hfirst.
  - (* the first point *)
    destruct ps as [|? ?]; [|done]. simpl in *. injection Hp0' as <-.
    rewrite (Hnil eq_refl). unfold scan_point; simpl.
    assert (Hh : (if gpx.NotNull (gpx.Elevation p)
                     && (gpx.Value (gpx.Elevation p) >? gpx.Value (gpx.Elevation p))%Z
                  then mkPtr (snd st) p else mkPtr (snd st) p) = mkPtr 0 p).
    { rewrite Hk. by destruct (_ && _). }
    rewrite Hh. exists (mkPtr 0 p). simpl. rewrite Hk. repeat split; eauto.
    + intros j q Hj _. destruct j as [|j]; simpl in Hj; [|done].
      injection Hj as <-. lia.
    + simpl. lia.
Qed.

Lemma scanned_all ps : scanned ps (scan_points (empty_bounds, 0%nat) ps).
Proof.
  induction ps as [|p ps IH] using rev_ind.
  - repeat split; done.
  - rewrite scan_points_app. simpl. by apply scanned_step.
Qed.

Lemma scan_scanned t : scanned (all_points t) (scan t, length (all_points t)).
Proof.
  pose proof (scanned_all (all_points t)) as H. rewrite scan_flat.
  destruct (scan_points _ _) as [tb k]. destruct H as (Hk & ?). simpl in *. by subst k.
Qed.

Lemma Highest_scan_None t : Highest (scan t) = None <-> all_points t = [].
Proof.
  destruct (scan_scanned t) as (_ & Hnil & Hcons). simpl in *. split.
  - intros HN. destruct (all_points t) as [|p0 ps]; [done|].
    destruct (Hcons p0 eq_refl) as (h & _ & HH & _). congruence.
  - intros E. by rewrite (Hnil E).
Qed.

Lemma Highest_scan_Some t :
  all_points t <> [] ->
  exists h, Highest (scan t) = Some h /\ all_points t !! addr h = Some (deref h).
Proof.
  intros Hne. destruct (scan_scanned t) as (_ & _ & Hcons). simpl in *.
  destruct (all_points t) as [|p0 ps]; [done|].
  destruct (Hcons p0 eq_refl) as (h & _ & HH & _ & Hh & _). eauto.
Qed.

(** Whenever the analysis succeeds, its Highest is the spec's Highest, and
    Start and End are the first and the last point. *)
Lemma ToTrackBounds_Ok t tb :
  ToTrackBounds t = Ok tb ->
  exists start h end_,
    Start tb = Some start /\ Highest tb = Some h /\ End_ tb = Some end_ /\
    head (all_points t) = Some (deref start) /\
    last (all_points t) = Some (deref end_) /\
    all_points t !! addr h = Some (deref h) /\
    spec_highest (all_points t) (addr h) /\
    time.IsZero (gpx.Timestamp (deref h)) = false.
Proof.
  unfold ToTrackBounds. intros H.
  destruct (scan_scanned t) as (_ & _ & Hcons). simpl in *.
  destruct (Highest (scan t)) as [h|] eqn:HH; [|done].
  destruct (gpx.NotNull (gpx.Elevation (deref h))) eqn:Hp; simpl in H; [|done].
  destruct (time.IsZero (gpx.Timestamp (deref h))) eqn:Hz; [done|].
  injection H as <-.
  destruct (all_points t) as [|p0 ps] eqn:Hps.
  { apply Highest_scan_None in Hps. congruence. }
  destruct (Hcons p0 eq_refl) as (h' & HS & HH' & (pl & HE & Hpl) & Hh & _ & Hmax & Hfirst).
  assert (h' = h) by congruence. subst h'.
  exists (mkPtr 0 p0), h, (mkPtr (length (p0 :: ps) - 1) pl).
  repeat split; try done.
  - simpl. rewrite last_lookup. simpl in *. by rewrite Nat.sub_0_r in Hpl.
  - exists (deref h). repeat split; done.
Qed.

(** The spec's example of a tie: Highest is the point at index 1. *)
Example ToTrackBounds_tie :
  exists tb, ToTrackBounds tie_track = Ok tb
             /\ Highest tb = Some (mkPtr 1 (pt (Some 200%Z) 2%Z)).
Proof. eexists. split; reflexivity. Qed.

(** C1 (the code departs from the claim).  On [basin_track] the only point
    carrying a present elevation is the one at index 1, so the spec's
    Highest is that point; the scan keeps the first point, which carries no
    elevation and reads as 0, and the analysis fails with "missing
    elevation". *)
Theorem ToTrackBounds_basin :
  spec_highest (all_points basin_track) 1 /\
  Highest (scan basin_track) = Some (mkPtr 0 (pt None 1%Z)) /\
  ToTrackBounds basin_track = Err "missing elevation".
Proof.
  split; [|split; reflexivity].
  exists (pt (Some (-50)%Z) 2%Z). repeat split.
  - intros [|[|j]] q Hj Hq; simpl in Hj; simplify_eq; [done | reflexivity].
  - intros [|[|j]] q Hlt Hj Hq; simpl in Hj; simplify_eq; try lia. done.
Qed.

(** C5.  The order of the analyzer's checks: "missing points" exactly when
    the track has no point; otherwise "missing elevation" exactly when the
    Highest of the scan (one of the track's points) carries no present
    elevation, which is the case when no point carries one; otherwise
    "missing timestamp" exactly when Highest's timestamp is the zero time;
    otherwise success with the scanned bounds.  [ToTrackBounds] is a
    function of the track alone: it takes no world and returns none. *)
Theorem ToTrackBounds_error_order (t : gpx.GPXTrack) :
  (ToTrackBounds t = Err "missing points" <-> all_points t = []) /\
  (all_points t <> [] ->
     exists h, Highest (scan t) = Some h /\ all_points t !! addr h = Some (deref h) /\
       (ToTrackBounds t = Err "missing elevation" <-> ~ present (deref h)) /\
       (present (deref h) ->
          (ToTrackBounds t = Err "missing timestamp"
             <-> time.IsZero (gpx.Timestamp (deref h)) = true) /\
          (time.IsZero (gpx.Timestamp (deref h)) = false -> ToTrackBounds t = Ok (scan t)))) /\
  (all_points t <> [] -> (forall p, In p (all_points t) -> ~ present p) ->
     ToTrackBounds t = Err "missing elevation").
Proof.
  assert (Hsome : all_points t <> [] ->
     exists h, Highest (scan t) = Some h /\ all_points t !! addr h = Some (deref h) /\
       (ToTrackBounds t = Err "missing elevation" <-> ~ present (deref h)) /\
       (present (deref h) ->
          (ToTrackBounds t = Err "missing timestamp"
             <-> time.IsZero (gpx.Timestamp (deref h)) = true) /\
          (time.IsZero (gpx.Timestamp (deref h)) = false -> ToTrackBounds t = Ok (scan t)))).
  { intros Hne. destruct (Highest_scan_Some t Hne) as (h & HH & Hh).
    exists h. split; [done|]. split; [done|].
    unfold ToTrackBounds, present. rewrite HH.
    destruct (gpx.NotNull (gpx.Elevation (deref h))); simpl.
    - split; [split; [by destruct (time.IsZero _) | done]|].
      intros _. destruct (time.IsZero _); split; done.
    - split; [split; [done | done]|done]. }
  split; [|split; [done|]].
  - unfold ToTrackBounds. split.
    + intros H. apply Highest_scan_None.
      destruct (Highest (scan t)) as [h|]; [|done].
      destruct (negb _); [done|]. by destruct (time.IsZero _).
    + intros E. apply Highest_scan_None in E. by rewrite E.
  - intros Hne Hall. destruct (Hsome Hne) as (h & _ & Hh & Hel & _).
    apply Hel. apply Hall. apply list_elem_of_In. by eapply list_elem_of_lookup_2.
Qed.

(** ** The converter step *)

(** C9.  For an input of a known format: when [ioutil.TempFile] returns no
    handle, [ToGPX] panics on [of.Name()] before it looks at the error, and
    no temporary file exists afterwards; and [ToGPX] returns the "failed to
    create temp gpx output file" error exactly when [ioutil.TempFile]
    returned both a handle and an error. *)
Theorem ToGPX_create_failure (env : Env) (input : string) (w : World) :
  is_Some (extToGPSBabelFormat !! ToLower (Ext input)) ->
  (forall e, ioutil_TempFile env (trace w) = (None, e) ->
     exists w', ToGPX env input w = (Panic nil_dereference, w')
                /\ tmpfiles w' = tmpfiles w) /\
  (forall e,
     (exists s w', ToGPX env input w
                   = (Return (s, Some ("failed to create temp gpx output file: " +:+ e)), w'))
     <-> exists name, ioutil_TempFile env (trace w) = (Some name, Some e)).
Proof.
  intros [format Hf]. unfold ToGPX. rewrite Hf. unfold bind, TempFile, cmd_Run, ret, panic.
  split.
  - intros e He. rewrite He. simpl. eauto.
  - intros e. destruct (ioutil_TempFile env (trace w)) as [[name|] [e'|]] eqn:Ht; simpl.
    + split.
      * intros (s & w' & H). exists name. by simplify_eq/=.
      * intros (name' & H). simplify_eq. eauto.
    + split.
      * intros (s & w' & H). exfalso.
        destruct (gpsbabel_Run env _ format input name); simplify_eq/=.
      * intros (name' & H). simplify_eq.
    + split; [intros (s & w' & H); simplify_eq | intros (? & H); simplify_eq].
    + split; [intros (s & w' & H); simplify_eq | intros (? & H); simplify_eq].
Qed.

(** Converting [tracks/Rainier.GPX] when no temporary file can be created. *)
Lemma ToGPX_create_failure_witness :
  is_Some (extToGPSBabelFormat !! ToLower (Ext "tracks/Rainier.GPX")) /\
  exists w', ToGPX env_no_tempfile "tracks/Rainier.GPX" world0 = (Panic nil_dereference, w')
             /\ tmpfiles w' = tmpfiles world0.
Proof.
  assert (H : is_Some (extToGPSBabelFormat !! ToLower (Ext "tracks/Rainier.GPX")))
    by (vm_compute; eauto).
  split; [exact H|].
  exact (proj1 (ToGPX_create_failure env_no_tempfile "tracks/Rainier.GPX" world0 H)
               (Some "no space left on device") eq_refl).
Defined.

(** ** What a computation adds to the trace *)

Section Appends.

Context {A B : Type} (P : Event -> Prop).

Lemma appends_ret (a : A) : appends P (ret a).
Proof. intros w. exists []. by rewrite app_nil_r. Qed.

Lemma appends_panic (msg : string) : appends P (@panic A msg).
Proof. intros w. exists []. by rewrite app_nil_r. Qed.

Lemma appends_bind (m : M A) (k : A -> M B) :
  appends P m -> (forall a, appends P (k a)) -> appends P (bind m k).
Proof.
  intros Hm Hk w. unfold bind. destruct (Hm w) as (evs & Ht & HP & Hh).
  destruct (m w) as [[a|msg] w1]; simpl in *.
  - destruct (Hk a w1) as (evs' & Ht' & HP' & Hh').
    exists (evs ++ evs'). rewrite Ht', Ht, Hh', Hh, app_assoc.
    split; [done|]. split; [by apply Forall_app|done].
  - by exists evs.
Qed.

Lemma appends_defer (cleanup : M unit) (body : M A) :
  appends P body -> appends P cleanup -> appends P (defer cleanup body).
Proof.
  intros Hb Hc w. unfold defer. destruct (Hb w) as (evs & Ht & HP & Hh).
  destruct (body w) as [[a|msg] w1]; simpl in *;
    destruct (Hc w1) as (evs' & Ht' & HP' & Hh');
    exists (evs ++ evs'); rewrite Ht', Ht, Hh', Hh, app_assoc;
    (split; [done|]); (split; [by apply Forall_app|done]).
Qed.

Lemma appends_one (m : M A) (e : Event) :
  P e ->
  (forall w, trace (snd (m w)) = trace w ++ [e]
             /\ history_json (snd (m w)) = history_json w) ->
  appends P m.
Proof.
  intros He Hm w. destruct (Hm w) as [Ht Hh]. exists [e].
  split; [done|]. split; [by apply Forall_singleton|done].
Qed.

End Appends.

Lemma appends_emit P e : P e -> appends P (emit e).
Proof. intros He. by apply (appends_one P _ e). Qed.

Lemma appends_get_trace P : appends P get_trace.
Proof. intros w. exists []. by rewrite app_nil_r. Qed.

Lemma appends_Now P env : appends P (Now env).
Proof. intros w. exists []. by rewrite app_nil_r. Qed.

Lemma appends_TempFile P env :
  (forall h, P (EvTempFile h)) -> appends P (TempFile env).
Proof. intros He w. exists [EvTempFile (fst (ioutil_TempFile env (trace w)))].
  split; [done|]. split; [by apply Forall_singleton|done]. Qed.

Lemma appends_cmd_Run P env f i o :
  P (EvGpsbabel f i o) -> appends P (cmd_Run env f i o).
Proof. intros He. by apply (appends_one P _ (EvGpsbabel f i o)). Qed.

Lemma appends_ReadFile P env n : P (EvReadFile n) -> appends P (ReadFile env n).
Proof. intros He. by apply (appends_one P _ (EvReadFile n)). Qed.

Lemma appends_Remove P n : P (EvRemove n) -> appends P (os_Remove n).
Proof. intros He. by apply (appends_one P _ (EvRemove n)). Qed.

Lemma appends_FindPeaks P env b : P (EvFindPeaks b) -> appends P (client_FindPeaks env b).
Proof. intros He. by apply (appends_one P _ (EvFindPeaks b)). Qed.

Lemma appends_ListAscents P env : P EvListAscents -> appends P (client_ListAscents env).
Proof. intros He. by apply (appends_one P _ EvListAscents). Qed.

Lemma appends_AddAscent P env a : P (EvAddAscent a) -> appends P (client_AddAscent env a).
Proof. intros He. by apply (appends_one P _ (EvAddAscent a)). Qed.

(** One step through a computation: binds, returns, calls, and the
    branches of the program. *)
Ltac appends_step :=
  match goal with
  | |- appends _ (bind _ _) => apply appends_bind; [|intros ?]
  | |- appends _ (ret _) => apply appends_ret
  | |- appends _ (panic _) => apply appends_panic
  | |- appends _ (defer _ _) => apply appends_defer
  | |- appends _ (emit _) => apply appends_emit
  | |- appends _ get_trace => apply appends_get_trace
  | |- appends _ (Now _) => apply appends_Now
  | |- appends _ (TempFile _) => apply appends_TempFile; intros ?
  | |- appends _ (cmd_Run _ _ _ _) => apply appends_cmd_Run
  | |- appends _ (ReadFile _ _) => apply appends_ReadFile
  | |- appends _ (os_Remove _) => apply appends_Remove
  | |- appends _ (client_FindPeaks _ _) => apply appends_FindPeaks
  | |- appends _ (client_ListAscents _) => apply appends_ListAscents
  | |- appends _ (client_AddAscent _ _) => apply appends_AddAscent
  | |- appends _ (match ?x with _ => _ end) => destruct x eqn:?
  | |- appends _ (let (_, _) := ?x in _) => destruct x eqn:?
  end.

Lemma appends_ToGPX P env input :
  (forall h, P (EvTempFile h)) -> (forall f i o, P (EvGpsbabel f i o)) ->
  appends P (ToGPX env input).
Proof. intros HT HG. unfold ToGPX. repeat appends_step; done. Qed.

Lemma appends_matchPeak P env highest :
  (forall b, P (EvFindPeaks b)) -> (forall n, P (EvWarnPeaks n)) ->
  appends P (matchPeak env highest).
Proof. intros HF HW. unfold matchPeak. repeat appends_step; done. Qed.

Lemma appends_UploadTrack_bounds env flags t :
  appends (submits_bounds t) (UploadTrack env flags t).
Proof.
  unfold UploadTrack. repeat appends_step; try (by apply appends_matchPeak); try done.
  match goal with H : ToTrackBounds t = Ok _ |- _ =>
    destruct (ToTrackBounds_Ok _ _ H) as (s & h & e & HS & HH & HE & Hhd & Hlast & _) end.
  simplify_eq. simpl. eauto 10.
Qed.

Lemma events_since_app w w' evs :
  trace w' = trace w ++ evs -> events_since w w' = evs.
Proof. intros H. unfold events_since. by rewrite H, drop_app_length. Qed.

(** ** The ascent record *)

(** C10.  Every ascent that [UploadTrack] submits carries as start and end
    elevation the elevation values of the first and of the last point of
    the track, read without a presence check: where that point carries no
    elevation the field is the default 0. *)
Theorem UploadTrack_start_end_elevation
    (env : Env) (flags : Flags) (t : gpx.GPXTrack) (w : World) (a : peakbagger.Ascent) :
  In (EvAddAscent a) (events_since w (snd (UploadTrack env flags t w))) ->
  exists first last_,
    head (all_points t) = Some first /\ last (all_points t) = Some last_ /\
    peakbagger.StartElevation a = gpx.Value (gpx.Elevation first) /\
    peakbagger.EndElevation a = gpx.Value (gpx.Elevation last_) /\
    (~ present first -> peakbagger.StartElevation a = 0%Z) /\
    (~ present last_ -> peakbagger.EndElevation a = 0%Z).
Proof.
  intros Hin.
  destruct (appends_UploadTrack_bounds env flags t w) as (evs & Ht & HP & _).
  rewrite (events_since_app _ _ _ Ht) in Hin.
  apply list_elem_of_In in Hin.
  rewrite Forall_forall in HP. specialize (HP _ Hin). simpl in HP.
  destruct HP as (first & last_ & Hhd & Hl & HS & HE).
  exists first, last_. repeat split; try done.
  - intros Hp. rewrite HS. unfold present in Hp. by destruct (gpx.Elevation first).
  - intros Hp. rewrite HE. unfold present in Hp. by destruct (gpx.Elevation last_).
Qed.

(** On [open_ended_track] the upload succeeds, and the submitted record has
    start and end elevation 0. *)
Lemma UploadTrack_start_end_elevation_witness :
  fst (UploadTrack env_one_peak (dir_flags false) open_ended_track world0) = Return None /\
  exists a,
    In (EvAddAscent a)
       (events_since world0 (snd (UploadTrack env_one_peak (dir_flags false)
                                              open_ended_track world0))) /\
    peakbagger.StartElevation a = 0%Z /\ peakbagger.EndElevation a = 0%Z.
Proof.
  split; [reflexivity|].
  set (a := buildAscent env_one_peak open_ended_track (pt None 1%Z) (pt (Some 2000%Z) 2%Z)
                        (pt None 3%Z) rainier 1003%Z).
  assert (Hin : In (EvAddAscent a)
                   (events_since world0 (snd (UploadTrack env_one_peak (dir_flags false)
                                                          open_ended_track world0)))).
  { vm_compute. tauto. }
  exists a. split; [exact Hin|].
  destruct (UploadTrack_start_end_elevation _ _ _ _ _ Hin)
    as (first & last_ & Hhd & Hl & _ & _ & HS & HE).
  injection Hhd as <-. injection Hl as <-.
  split; [apply HS | apply HE]; discriminate.
Defined.

(** ** The peak matcher *)

(** The promise of [sort.Slice] can be kept on every input: insertion sort
    keeps it for a comparison of keys. *)
Section StableSort.

Context {A : Type} (d : A -> Z).

Let less (a b : A) : bool := (d a <? d b)%Z.

Lemma insert_before_perm x l : insert_before less x l ≡ₚ x :: l.
Proof.
  induction l as [|y l IH]; simpl; [done|].
  destruct (less y x); [|done]. rewrite IH. apply perm_swap.
Qed.

Lemma stable_sort_perm l : l ≡ₚ stable_sort l less.
Proof.
  induction l as [|x l IH]; simpl; [done|].
  unfold stable_sort in *. simpl. by rewrite insert_before_perm, <- IH.
Qed.

Lemma insert_before_sorted x l :
  StronglySorted (fun a b => less b a = false) l ->
  StronglySorted (fun a b => less b a = false) (insert_before less x l).
Proof.
  induction 1 as [|y l Hs IH Hall]; simpl; [by repeat constructor|].
  destruct (less y x) eqn:Hyx.
  - constructor; [done|]. rewrite insert_before_perm. constructor; [|done].
    unfold less in *. apply Z.ltb_lt in Hyx. apply Z.ltb_ge. lia.
  - constructor; [by constructor|]. constructor; [done|].
    eapply Forall_impl; [exact Hall|]. unfold less in *. simpl. intros z Hz.
    apply Z.ltb_ge in Hyx, Hz. apply Z.ltb_ge. lia.
Qed.

Lemma stable_sort_sorted l :
  StronglySorted (fun a b => less b a = false) (stable_sort l less).
Proof.
  induction l as [|x l IH]; [constructor|]. by apply insert_before_sorted.
Qed.

End StableSort.

Lemma stable_sort_keeps_promise env highest peaks :
  sort_Slice_post (closer env highest) peaks (stable_sort peaks (closer env highest)).
Proof.
  split.
  - apply (stable_sort_perm (dist env highest)).
  - apply (stable_sort_sorted (dist env highest)).
Qed.

(** With a stable sort the matcher would make the choice of the claim. *)
Lemma stable_sort_first_nearest env highest peaks :
  head (stable_sort peaks (closer env highest)) = first_nearest (dist env highest) peaks.
Proof.
  induction peaks as [|p rest IH]; [done|].
  simpl. rewrite <- IH. unfold stable_sort. simpl.
  destruct (foldr _ _ rest) as [|q l]; [done|]. simpl.
  unfold closer at 1. fold (dist env highest q) (dist env highest p).
  by destruct (dist env highest q <? dist env highest p)%Z.
Qed.

(** C2, as stated, fails: on [seven_peaks], with a sort that meets the
    promise of [sort.Slice], the two nearest candidates are at the same
    distance and the matcher selects the one that comes later in the
    catalog's order. *)
Lemma matchPeak_tie_not_catalog_order :
  ~ (forall env highest w peaks,
       FindPeaks env (trace w) (search_bounds env highest) = Ok peaks ->
       sort_Slice_post (closer env highest) peaks
                       (sort_Slice env peaks (closer env highest)) ->
       (1 < length peaks)%nat ->
       exists p w', matchPeak env highest w = (Return (Ok p), w')
                    /\ first_nearest (dist env highest) peaks = Some p).
Proof.
  intros H.
  destruct (H env_seven_peaks (pt (Some 2000%Z) 2%Z) world0 seven_peaks)
    as (p & w' & Hm & Hf).
  - reflexivity.
  - split.
    + change (far_peak :: (north_peak :: knobs) ++ [south_peak]
              ≡ₚ south_peak :: (north_peak :: knobs) ++ [far_peak]).
      rewrite <- !Permutation_cons_append. apply perm_swap.
    + repeat constructor.
  - simpl. lia.
  - vm_compute in Hm. vm_compute in Hf. congruence.
Qed.

(** On [seven_peaks] the claim's choice is the northern twin; the matcher,
    with [short_slice_sort], selects the southern one and logs the warning. *)
Example matchPeak_seven_peaks :
  first_nearest (dist env_seven_peaks (pt (Some 2000%Z) 2%Z)) seven_peaks = Some north_peak /\
  matchPeak env_seven_peaks (pt (Some 2000%Z) 2%Z) world0
    = (Return (Ok south_peak),
       after_warning 7 (after_search env_seven_peaks (pt (Some 2000%Z) 2%Z) world0)).
Proof. split; reflexivity. Qed.

(** C2, amended.  When the search returns [peaks] and the sort keeps its
    promise: no peak gives the error "no peaks found"; a single peak is
    selected, without warning; of several peaks one at the least distance
    from the highest point is selected, and one warning is logged.  Which
    of several nearest peaks is selected is left open. *)
Theorem matchPeak_selects
    (env : Env) (highest : gpx.GPXPoint) (w : World) (peaks : list peakbagger.Peak) :
  FindPeaks env (trace w) (search_bounds env highest) = Ok peaks ->
  sort_Slice_post (closer env highest) peaks (sort_Slice env peaks (closer env highest)) ->
  (peaks = [] ->
     matchPeak env highest w = (Return (Err "no peaks found"), after_search env highest w)) /\
  (forall p, peaks = [p] ->
     matchPeak env highest w = (Return (Ok p), after_search env highest w)) /\
  ((1 < length peaks)%nat ->
     exists p,
       matchPeak env highest w
         = (Return (Ok p), after_warning (length peaks) (after_search env highest w))
       /\ In p peaks
       /\ forall q, In q peaks -> (dist env highest p <= dist env highest q)%Z).
Proof.
  intros HF [Hperm Hsorted].
  assert (Hrun : matchPeak env highest w =
    match sort_Slice env peaks (closer env highest) with
    | [] => (Return (Err "no peaks found"), after_search env highest w)
    | [p] => (Return (Ok p), after_search env highest w)
    | p :: ps => (Return (Ok p), after_warning (length (p :: ps)) (after_search env highest w))
    end).
  { unfold matchPeak, bind, client_FindPeaks. fold (search_bounds env highest).
    rewrite HF. fold (after_search env highest w).
    destruct (sort_Slice env peaks (closer env highest)) as [|p [|p' ps]]; reflexivity. }
  rewrite Hrun. clear Hrun. split; [|split].
  - intros ->. by apply Permutation_nil_l in Hperm as <-.
  - intros p ->. by apply Permutation_singleton_l in Hperm as <-.
  - intros Hlen. rewrite (Permutation_length Hperm) in *.
    destruct (sort_Slice env peaks (closer env highest)) as [|p [|p' ps]] eqn:Hs;
      simpl in Hlen; try lia.
    exists p. split; [done|]. split.
    + apply list_elem_of_In. rewrite Hperm. left.
    + intros q Hq. apply list_elem_of_In in Hq. rewrite Hperm in Hq.
      apply StronglySorted_inv in Hsorted as [_ Hall].
      apply elem_of_cons in Hq as [->|Hq]; [lia|].
      rewrite Forall_forall in Hall. specialize (Hall q Hq).
      unfold closer in Hall. fold (dist env highest q) (dist env highest p) in Hall.
      apply Z.ltb_ge in Hall. done.
Qed.

(** Two candidates at the same distance, sorted by a stable sort. *)
Lemma matchPeak_selects_witness :
  exists p,
    matchPeak env_twins_stable (pt (Some 2000%Z) 2%Z) world0
      = (Return (Ok p),
         after_warning 2 (after_search env_twins_stable (pt (Some 2000%Z) 2%Z) world0))
    /\ In p [north_peak; south_peak]
    /\ forall q, In q [north_peak; south_peak] ->
         (dist env_twins_stable (pt (Some 2000%Z) 2%Z) p
          <= dist env_twins_stable (pt (Some 2000%Z) 2%Z) q)%Z.
Proof.
  refine (proj2 (proj2 (matchPeak_selects env_twins_stable (pt (Some 2000%Z) 2%Z) world0
                          [north_peak; south_peak] eq_refl _)) _).
  - split; [reflexivity | repeat constructor].
  - simpl. lia.
Defined.

(** ** The temporary file *)

(** Once [ToGPX] has succeeded, the deferred [os.Remove] deletes its output
    whatever happens to the tracks. *)
Lemma UploadFile_removes_output env flags filename w gf w1 :
  ToGPX env filename (snd (emit (EvCallUploadFile filename) w)) = (Return (gf, None), w1) ->
  gf ∉ tmpfiles (snd (UploadFile env flags filename w)).
Proof.
  intros H. unfold UploadFile. unfold bind at 1. unfold emit in *. cbv beta iota.
  unfold bind at 1. simpl in H. rewrite H. unfold defer.
  destruct (bind _ _ w1) as [[r|msg] w2]; simpl;
    intros [_ Hn]%elem_of_difference; apply Hn; by apply elem_of_singleton.
Qed.

(** When gpsbabel fails, [ToGPX] hands back the name of the file it created
    together with the error, [UploadFile] returns before it registers the
    deferred removal, and the file stays. *)
Lemma UploadFile_conversion_failure env flags filename w format name e :
  extToGPSBabelFormat !! ToLower (Ext filename) = Some format ->
  ioutil_TempFile env (trace w ++ [EvCallUploadFile filename]) = (Some name, None) ->
  gpsbabel_Run env (trace w ++ [EvCallUploadFile filename; EvTempFile (Some name)])
               format filename name = Some e ->
  fst (UploadFile env flags filename w)
    = Return (Some ("ToGPX failed gpsbabel conversion failed " +:+ e +:+ ": ")) /\
  name ∈ tmpfiles (snd (UploadFile env flags filename w)) /\
  events_since w (snd (UploadFile env flags filename w))
    = [EvCallUploadFile filename; EvTempFile (Some name); EvGpsbabel format filename name].
Proof.
  intros Hf Ht Hg.
  unfold UploadFile, ToGPX, events_since, bind, emit, TempFile, cmd_Run, ret. simpl.
  rewrite Hf. simpl. rewrite Ht. simpl. rewrite <- app_assoc. simpl. rewrite Hg. simpl.
  split; [done|]. split; [set_solver|].
  rewrite <- app_assoc. simpl.
  by rewrite drop_app_length.
Qed.

(** C6 (the code departs from the claim).  Processing [tracks/broken.gpx]
    when gpsbabel fails: the temporary file has been created, the file's
    processing completes with the conversion error, no [os.Remove] has
    happened, and the temporary file is still there. *)
Theorem UploadFile_leaves_temp_file :
  fst (UploadFile env_babel_fails (dir_flags false) "tracks/broken.gpx" world0)
    = Return (Some "ToGPX failed gpsbabel conversion failed exit status 1: ") /\
  trace (snd (UploadFile env_babel_fails (dir_flags false) "tracks/broken.gpx" world0))
    = [EvCallUploadFile "tracks/broken.gpx"; EvTempFile (Some tmp_gpx);
       EvGpsbabel "gpx" "tracks/broken.gpx" tmp_gpx] /\
  tmp_gpx ∈ tmpfiles (snd (UploadFile env_babel_fails (dir_flags false)
                                      "tracks/broken.gpx" world0)).
Proof.
  destruct (UploadFile_conversion_failure env_babel_fails (dir_flags false)
              "tracks/broken.gpx" world0 "gpx" tmp_gpx "exit status 1")
    as (Hr & Hin & Hev); try reflexivity.
  split; [exact Hr|]. split; [exact Hev | exact Hin].
Qed.

(** ** Computations that always return *)

Lemma total_ret {A : Type} (a : A) : total (ret a).
Proof. intros w. by exists a, w. Qed.

Lemma total_bind {A B : Type} (m : M A) (k : A -> M B) :
  total m -> (forall a, total (k a)) -> total (bind m k).
Proof.
  intros Hm Hk w. unfold bind. destruct (Hm w) as (a & w1 & ->). apply Hk.
Qed.

Lemma total_fun {A : Type} (f : World -> A) (g : World -> World) :
  total (fun w => (Return (f w), g w)).
Proof. intros w. by eexists _, _. Qed.

Lemma total_matchPeak env highest : total (matchPeak env highest).
Proof.
  unfold matchPeak. apply total_bind; [apply total_fun|]. intros [peaks|e]; [|apply total_ret].
  destruct (sort_Slice env peaks (closer env highest)) as [|p ps]; simpl; [apply total_ret|].
  apply total_bind; [|intros; apply total_ret].
  destruct (1 <? S (length ps))%nat; [apply total_fun | apply total_ret].
Qed.

Lemma total_UploadTrack env flags t : total (UploadTrack env flags t).
Proof.
  unfold UploadTrack. apply total_bind; [apply total_fun|]. intros _.
  destruct (ToTrackBounds t) as [tb|e] eqn:HT; [|apply total_ret].
  destruct (ToTrackBounds_Ok _ _ HT) as (s & h & e & -> & -> & -> & _).
  apply total_bind; [apply total_matchPeak|]. intros [peak|msg]; [|apply total_ret].
  apply total_bind; [apply total_fun|]. intros [ascents|msg]; [|apply total_ret].
  destruct (peakbagger.Has _ _ _); [apply total_ret|].
  apply total_bind; [apply total_fun|]. intros now.
  destruct (dryRun flags); [apply total_ret|].
  apply total_bind; [apply total_fun|]. intros [id|msg]; apply total_ret.
Qed.

(** ** The events of [UploadTrack] and [UploadFile] *)

Lemma appends_after_emit {A : Type} (P : Event -> Prop) (e : Event) (k : unit -> M A) :
  (forall a, appends P (k a)) ->
  forall w, exists evs,
    trace (snd (bind (emit e) k w)) = trace w ++ e :: evs /\ Forall P evs /\
    history_json (snd (bind (emit e) k w)) = history_json w.
Proof.
  intros Hk w. unfold bind, emit.
  destruct (Hk tt (mkWorld (trace w ++ [e]) (tmpfiles w) (history_json w)))
    as (evs & Ht & HP & Hh).
  exists evs. simpl in *. by rewrite Ht, Hh, <- app_assoc.
Qed.

(** [UploadTrack] leaves its mark, then only calls the surroundings. *)
Lemma UploadTrack_events env flags t w :
  exists evs,
    trace (snd (UploadTrack env flags t w))
      = trace w ++ EvCallUploadTrack (gpx.Name t) :: evs /\
    Forall quiet evs /\
    history_json (snd (UploadTrack env flags t w)) = history_json w.
Proof.
  unfold UploadTrack. apply appends_after_emit. intros _.
  repeat appends_step; try (by apply appends_matchPeak); done.
Qed.

Lemma track_calls_quiet evs : Forall quiet evs -> track_calls evs = [].
Proof.
  induction 1 as [|e evs He _ IH]; [done|].
  destruct e; simpl in He; try done; exact IH.
Qed.

Lemma file_calls_quiet evs : Forall quiet evs -> file_calls evs = [].
Proof.
  induction 1 as [|e evs He _ IH]; [done|].
  destruct e; simpl in He; try done; exact IH.
Qed.

Lemma track_calls_app a b : track_calls (a ++ b) = track_calls a ++ track_calls b.
Proof. apply omap_app. Qed.

Lemma file_calls_app a b : file_calls (a ++ b) = file_calls a ++ file_calls b.
Proof. apply omap_app. Qed.

(** ** Several tracks in one file *)

Lemma upload_tracks_attempts env flags ts acc w :
  exists errs w',
    attempts env flags ts w errs w' /\
    upload_tracks env flags ts acc w
      = (Return (join_errors acc (track_failures env ts errs)), w') /\
    track_calls (events_since w w') = map gpx.Name ts /\
    file_calls (events_since w w') = [] /\
    history_json w' = history_json w.
Proof.
  revert acc w. induction ts as [|t ts IH]; intros acc w.
  - exists [], w. repeat split; try constructor.
    + unfold events_since. by rewrite drop_all.
    + unfold events_since. by rewrite drop_all.
  - destruct (total_UploadTrack env flags t w) as (e & w1 & Hrun).
    destruct (UploadTrack_events env flags t w) as (evs & Ht & Hq & Hh).
    rewrite Hrun in Ht, Hh. simpl in Ht, Hh.
    set (acc' := match e with
                 | Some msg =>
                     match acc with
                     | None => Some (msg +:+ " processing track " +:+ Quote env (gpx.Name t))
                     | Some a => Some (a +:+ ", "
                                         +:+ (msg +:+ " processing track "
                                                  +:+ Quote env (gpx.Name t)))
                     end
                 | None => acc
                 end).
    destruct (IH acc' w1) as (errs & w2 & Hatt & Hres & Hcalls & Hfiles & Hh2).
    exists (e :: errs), w2. split; [by econstructor|].
    assert (Hsince : events_since w w2
                     = (EvCallUploadTrack (gpx.Name t) :: evs) ++ events_since w1 w2).
    { assert (Hext : exists evs2, trace w2 = trace w1 ++ evs2).
      { clear -Hatt. induction Hatt as [w|t' ts' w0 e' w1' es w2' Hr _ [evs2 IH2]].
        - exists []. by rewrite app_nil_r.
        - destruct (UploadTrack_events env flags t' w0) as (evs' & Ht' & _).
          rewrite Hr in Ht'. simpl in Ht'. rewrite IH2, Ht'.
          eexists. by rewrite <- app_assoc. }
      destruct Hext as [evs2 Hext].
      rewrite (events_since_app w1 w2 evs2 Hext).
      apply events_since_app. by rewrite Hext, Ht, <- app_assoc. }
    split; [|split; [|split]].
    + simpl. unfold bind. rewrite Hrun. subst acc'.
      destruct e as [msg|]; simpl; [destruct acc|]; exact Hres.
    + rewrite Hsince, track_calls_app, Hcalls.
      change (track_calls (EvCallUploadTrack (gpx.Name t) :: evs))
        with (gpx.Name t :: track_calls evs).
      by rewrite (track_calls_quiet evs Hq).
    + rewrite Hsince, file_calls_app, Hfiles.
      change (file_calls (EvCallUploadTrack (gpx.Name t) :: evs)) with (file_calls evs).
      by rewrite (file_calls_quiet evs Hq).
    + by rewrite Hh2, Hh.
Qed.

Lemma attempts_length env flags ts w errs w' :
  attempts env flags ts w errs w' -> length errs = length ts.
Proof. induction 1; simpl; congruence. Qed.

Lemma appends_UploadTrack_inner env flags t : appends inner (UploadTrack env flags t).
Proof.
  unfold UploadTrack. repeat appends_step; try (by apply appends_matchPeak); done.
Qed.

Lemma appends_upload_tracks_inner env flags ts acc :
  appends inner (upload_tracks env flags ts acc).
Proof.
  revert acc. induction ts as [|t ts IH]; intros acc; simpl; [apply appends_ret|].
  apply appends_bind; [apply appends_UploadTrack_inner|].
  intros [e|]; [destruct acc|]; apply IH.
Qed.

(** [UploadFile] leaves its mark, then nothing that belongs to another
    file; the history document is not touched. *)
Lemma UploadFile_events env flags filename w :
  exists evs,
    trace (snd (UploadFile env flags filename w))
      = trace w ++ EvCallUploadFile filename :: evs /\
    Forall inner evs /\
    history_json (snd (UploadFile env flags filename w)) = history_json w.
Proof.
  unfold UploadFile. apply appends_after_emit. intros _.
  apply appends_bind; [by apply appends_ToGPX|]. intros [gf [e|]]; [apply appends_ret|].
  apply appends_defer; [|by apply appends_Remove].
  apply appends_bind; [by apply appends_ReadFile|]. intros [b|e]; [|apply appends_ret].
  destruct (gpx_ParseBytes env b); [apply appends_upload_tracks_inner | apply appends_ret].
Qed.

Lemma file_calls_inner evs : Forall inner evs -> file_calls evs = [].
Proof.
  induction 1 as [|e evs He _ IH]; [done|].
  destruct e; simpl in He; try done; exact IH.
Qed.

(** ** One turn of the batch loop *)

Lemma run_files_pass env flags u fi rest :
  eligible fi = false \/ shouldSkip (FilenameHistory u) (fiName fi) (retry flags) = true ->
  run_files env flags u (fi :: rest) = run_files env flags u rest.
Proof.
  unfold eligible. intros H. simpl.
  destruct (IsDir fi); [done|].
  destruct (extToGPSBabelFormat !! Ext (fiName fi)) eqn:Hext.
  - destruct H as [H|H]; [simpl in H; done | by rewrite H].
  - done.
Qed.

(** A file that is neither passed over nor skipped is processed; its result
    is recorded under its name; a failed write of the history document ends
    the loop, otherwise the loop goes on with the rest of the files. *)
Lemma run_files_process env flags u fi rest w :
  eligible fi = true ->
  shouldSkip (FilenameHistory u) (fiName fi) (retry flags) = false ->
  run_files env flags u (fi :: rest) w =
    match UploadFile env flags (path_Join env (inputDirectory flags) (fiName fi)) w with
    | (Return err, w1) =>
        let u' := record env u (fiName fi) err w1 in
        match ioutil_WriteFile env (trace w1) with
        | Some e => (Return (u', Some e), after_save w1 (history_json w1))
        | None => run_files env flags u' rest (after_save w1 (Document (FilenameHistory u')))
        end
    | (Panic msg, w1) => (Panic msg, w1)
    end.
Proof.
  unfold eligible. intros He Hs. simpl.
  apply andb_true_iff in He as [Hd Hx]. apply negb_true_iff in Hd.
  apply bool_decide_eq_true in Hx as [format Hx].
  rewrite Hd, Hx, Hs. unfold bind at 1.
  destruct (UploadFile _ _ _ w) as [[err|msg] w1]; [|done].
  unfold bind, Now, SaveHistory, record, after_save. simpl.
  destruct err as [e|]; simpl; by destruct (ioutil_WriteFile env (trace w1)).
Qed.

(** Whatever the loop does, it only adds to the trace. *)
Lemma run_files_extends env flags files u w :
  exists evs, trace (snd (run_files env flags u files w)) = trace w ++ evs.
Proof.
  revert u w. induction files as [|fi rest IH]; intros u w.
  { exists []. by rewrite app_nil_r. }
  destruct (eligible fi) eqn:He;
    [destruct (shouldSkip (FilenameHistory u) (fiName fi) (retry flags)) eqn:Hs|].
  - rewrite run_files_pass by auto. apply IH.
  - rewrite (run_files_process _ _ _ _ _ _ He Hs).
    destruct (UploadFile_events env flags
                (path_Join env (inputDirectory flags) (fiName fi)) w) as (evs & Ht & _ & _).
    destruct (UploadFile _ _ _ w) as [[err|msg] w1]; cbn [fst snd] in *; cbv beta iota zeta.
    + destruct (ioutil_WriteFile env (trace w1)) as [e0|]; cbv beta iota zeta.
      * eexists. simpl. rewrite Ht. by rewrite <- app_assoc.
      * destruct (IH (record env u (fiName fi) err w1)
                     (after_save w1 (Document (FilenameHistory
                                                 (record env u (fiName fi) err w1)))))
          as (evs2 & Ht2).
        eexists. rewrite Ht2. simpl. rewrite Ht. by rewrite <- !app_assoc.
    + eexists. exact Ht.
  - rewrite run_files_pass by auto. apply IH.
Qed.

(** ** The history gate *)

(** C3.  The skip decision of the batch loop is true exactly when the file
    name has a history entry and (the entry's error is empty or retries were
    not requested): a recorded success is always skipped, a recorded failure
    is skipped exactly when [retry] is off, a name without entry is never
    skipped.  The loop follows the decision both ways: a file for which it
    is true is passed over, and an eligible file for which it is false is
    processed, the call of [UploadFile] on it being the next thing the loop
    does. *)
Theorem shouldSkip_iff (h : gmap string History) (name : string) (retryFailures : bool) :
  (shouldSkip h name retryFailures = true <->
     exists entry, h !! name = Some entry /\ (Error entry = "" \/ retryFailures = false)) /\
  (forall entry, h !! name = Some entry -> Error entry = "" ->
     shouldSkip h name retryFailures = true) /\
  (forall entry, h !! name = Some entry -> Error entry <> "" ->
     shouldSkip h name retryFailures = negb retryFailures) /\
  (h !! name = None -> shouldSkip h name retryFailures = false) /\
  (forall env flags fi rest,
     fiName fi = name -> retry flags = retryFailures ->
     shouldSkip h name retryFailures = true ->
     run_files env flags (mkUploader h) (fi :: rest) = run_files env flags (mkUploader h) rest) /\
  (forall env flags fi rest w,
     fiName fi = name -> retry flags = retryFailures -> eligible fi = true ->
     shouldSkip h name retryFailures = false ->
     run_files env flags (mkUploader h) (fi :: rest) w
       = match UploadFile env flags (path_Join env (inputDirectory flags) name) w with
         | (Return err, w1) =>
             let u' := record env (mkUploader h) name err w1 in
             match ioutil_WriteFile env (trace w1) with
             | Some e => (Return (u', Some e), after_save w1 (history_json w1))
             | None =>
                 run_files env flags u' rest (after_save w1 (Document (FilenameHistory u')))
             end
         | (Panic msg, w1) => (Panic msg, w1)
         end /\
     exists evs,
       trace (snd (run_files env flags (mkUploader h) (fi :: rest) w))
       = trace w ++ EvCallUploadFile (path_Join env (inputDirectory flags) name) :: evs).
Proof.
  split; [|split; [|split; [|split; [|split]]]].
  - unfold shouldSkip. split.
    + destruct (h !! name) as [entry|]; [|done].
      intros H. exists entry. split; [done|].
      apply orb_true_iff in H as [H|H];
        [left; by apply String.eqb_eq | right; by destruct retryFailures].
    + intros (entry & -> & [H|H]); apply orb_true_iff.
      * left. by apply String.eqb_eq.
      * right. by rewrite H.
  - unfold shouldSkip. intros entry -> H. by rewrite H.
  - unfold shouldSkip. intros entry -> H. apply String.eqb_neq in H. by rewrite H.
  - unfold shouldSkip. by intros ->.
  - intros env flags fi rest <- <- H. apply run_files_pass. by right.
  - intros env flags fi rest w <- <- He Hs.
    pose proof (run_files_process env flags (mkUploader h) fi rest w He Hs) as Hrun.
    split; [exact Hrun|]. rewrite Hrun.
    destruct (UploadFile_events env flags
                (path_Join env (inputDirectory flags) (fiName fi)) w) as (evs & Ht & _ & _).
    destruct (UploadFile _ _ _ w) as [[err|msg] w1]; cbn [fst snd] in *; cbv beta iota zeta.
    + destruct (ioutil_WriteFile env (trace w1)) as [e0|]; cbv beta iota zeta.
      * eexists. simpl. rewrite Ht. by rewrite <- app_assoc.
      * destruct (run_files_extends env flags rest
                    (record env (mkUploader h) (fiName fi) err w1)
                    (after_save w1 (Document (FilenameHistory
                                                (record env (mkUploader h) (fiName fi) err w1)))))
          as (evs2 & Ht2).
        eexists. rewrite Ht2. simpl. rewrite Ht. by rewrite <- !app_assoc.
    + eexists. exact Ht.
Qed.

(** Once conversion, reading and parsing have succeeded, the result of
    [UploadFile] is the result of the loop over the tracks. *)
Lemma UploadFile_tracks env flags filename w gf w1 b g :
  ToGPX env filename (snd (emit (EvCallUploadFile filename) w)) = (Return (gf, None), w1) ->
  ioutil_ReadFile env (trace w1) gf = Ok b ->
  gpx_ParseBytes env b = Ok g ->
  fst (UploadFile env flags filename w)
    = fst (upload_tracks env flags (gpx.Tracks g) None (snd (ReadFile env gf w1))).
Proof.
  intros HG HR HP. unfold UploadFile. unfold bind at 1. unfold emit in *. cbv beta iota.
  unfold bind at 1. simpl in HG. rewrite HG. unfold defer, bind, ReadFile. simpl.
  rewrite HR, HP. by destruct (upload_tracks _ _ _ _ _) as [[r|msg] w2].
Qed.

(** C8.  The loop over the tracks of a file runs [UploadTrack] on every
    track, in track order, whatever the earlier tracks returned; its result
    is the messages of the failed tracks, in track order, joined into one
    message (no error when no track failed).  That result is the result of
    [UploadFile] once the file was converted and parsed, the batch loop
    records it as the one history entry of the file, and, the history
    document written, goes on with the next file. *)
Theorem upload_tracks_attempts_every_track (env : Env) (flags : Flags) :
  (forall ts w, exists errs w',
      attempts env flags ts w errs w' /\ length errs = length ts /\
      upload_tracks env flags ts None w
        = (Return (join_errors None (track_failures env ts errs)), w') /\
      track_calls (events_since w w') = map gpx.Name ts) /\
  (forall filename w gf w1 b g,
      ToGPX env filename (snd (emit (EvCallUploadFile filename) w)) = (Return (gf, None), w1) ->
      ioutil_ReadFile env (trace w1) gf = Ok b ->
      gpx_ParseBytes env b = Ok g ->
      fst (UploadFile env flags filename w)
        = fst (upload_tracks env flags (gpx.Tracks g) None (snd (ReadFile env gf w1)))) /\
  (forall u fi rest w err w1,
      eligible fi = true ->
      shouldSkip (FilenameHistory u) (fiName fi) (retry flags) = false ->
      UploadFile env flags (path_Join env (inputDirectory flags) (fiName fi)) w
        = (Return err, w1) ->
      ioutil_WriteFile env (trace w1) = None ->
      let u' := record env u (fiName fi) err w1 in
      Error <$> (FilenameHistory u' !! fiName fi) = Some (default "" err) /\
      run_files env flags u (fi :: rest) w
        = run_files env flags u' rest (after_save w1 (Document (FilenameHistory u')))).
Proof.
  split; [|split].
  - intros ts w.
    destruct (upload_tracks_attempts env flags ts None w)
      as (errs & w' & Hatt & Hres & Hcalls & _).
    exists errs, w'. repeat split; try done. by eapply attempts_length.
  - intros. by eapply UploadFile_tracks.
  - intros u fi rest w err w1 He Hs Hup Hw. split.
    + unfold record. simpl. by rewrite lookup_insert_eq.
    + rewrite (run_files_process _ _ _ _ _ _ He Hs), Hup. simpl. by rewrite Hw.
Qed.

(** ** What ends a batch run *)

(** The loop returns an error only from a failed write of the history
    document, and that write is the last thing it did. *)
Lemma run_files_error env flags files u w u' e w' :
  run_files env flags u files w = (Return (u', Some e), w') ->
  exists w1, ioutil_WriteFile env (trace w1) = Some e
             /\ w' = after_save w1 (history_json w1)
             /\ exists evs, trace w1 = trace w ++ evs.
Proof.
  revert u w. induction files as [|fi rest IH]; intros u w H; [done|].
  destruct (eligible fi) eqn:He;
    [destruct (shouldSkip (FilenameHistory u) (fiName fi) (retry flags)) eqn:Hs|].
  - rewrite run_files_pass in H by auto. eauto.
  - rewrite (run_files_process _ _ _ _ _ _ He Hs) in H.
    destruct (UploadFile_events env flags
                (path_Join env (inputDirectory flags) (fiName fi)) w) as (evs & Ht & _ & _).
    destruct (UploadFile _ _ _ w) as [[err|msg] w1]; [|done]. simpl in *.
    destruct (ioutil_WriteFile env (trace w1)) as [e0|] eqn:Hw.
    + injection H as <- <- <-. exists w1. eauto.
    + apply IH in H as (w2 & Hw2 & -> & evs2 & Ht2). exists w2.
      repeat split; try done. simpl in Ht2. rewrite Ht2, Ht.
      eexists. by rewrite <- !app_assoc.
  - rewrite run_files_pass in H by auto. eauto.
Qed.

(** C7, as stated, fails: the directory is read, the login succeeds, the
    history document is absent, and the run is ended all the same, by the
    failed write of the history document after the first file. *)
Lemma main_aborts_on_failed_save :
  ~ (forall env flags w msg w',
       inputFile flags = "" ->
       main env flags w = (Return (Fatal msg), w') ->
       (exists e, Login env (trace w) = Err e)
       \/ (exists e, ioutil_ReadDir env (trace w) (inputDirectory flags) = Err e)
       \/ (exists e, history_json w = Unreadable e \/ history_json w = Corrupt e)).
Proof.
  intros H.
  destruct (main env_disk_full (dir_flags false) world0) as [r w'] eqn:Hm.
  assert (Hr : r = Return (Fatal "disk full")).
  { change r with (fst (r, w')). rewrite <- Hm. vm_compute. reflexivity. }
  subst r.
  destruct (H env_disk_full (dir_flags false) world0 _ _ eq_refl Hm)
    as [[e He] | [[e He] | [e [He | He]]]]; discriminate.
Qed.

(** In that run the second file of the directory is never processed. *)
Example main_aborts_before_second_file :
  file_calls (trace (snd (main env_disk_full (dir_flags false) world0))) = ["tracks/a.gpx"].
Proof. vm_compute. reflexivity. Qed.

(** C7, amended.  In directory mode [main] ends with [log.Fatalf] only when
    the login failed, the directory could not be read, the history
    document was there but unreadable or corrupt, or the history document
    could not be written after a file: in the first three cases nothing was
    processed, in the last the failed write is the last thing the run did.
    An absent history document is not an error: the run goes through the
    directory with the history it started with. *)
Theorem main_abort_causes (env : Env) (flags : Flags) (w : World) :
  inputFile flags = "" ->
  (forall msg w',
     main env flags w = (Return (Fatal msg), w') ->
     (exists e, Login env (trace w) = Err e /\ msg = "peakbagger login " +:+ e /\ w' = w)
     \/ (ioutil_ReadDir env (trace w) (inputDirectory flags) = Err msg /\ w' = w)
     \/ ((history_json w = Unreadable msg \/ history_json w = Corrupt msg) /\ w' = w)
     \/ (exists w1, ioutil_WriteFile env (trace w1) = Some msg
                    /\ w' = after_save w1 (history_json w1)
                    /\ exists evs, trace w1 = trace w ++ evs)) /\
  (forall u files,
     history_json w = Absent ->
     ioutil_ReadDir env (trace w) (inputDirectory flags) = Ok files ->
     Run env flags u w = run_files env flags u files w).
Proof.
  intros Hdir. split.
  - intros msg w'. unfold main, NewUploader, Run. rewrite Hdir. simpl.
    unfold bind, get_trace, ret, LoadHistory. simpl.
    destruct (Login env (trace w)) as [climber|e] eqn:HL; simpl.
    2: { intros H. injection H as <- <-. left. eauto. }
    destruct (ioutil_ReadDir env (trace w) (inputDirectory flags)) as [files|e] eqn:HD; simpl.
    2: { intros H. injection H as <- <-. right. left. eauto. }
    destruct (history_json w) as [|e|e|m] eqn:HH; simpl.
    + destruct (run_files env flags _ files w) as [[[u' [e|]]|p] w1] eqn:HR;
        simpl; intros H; try done.
      injection H as <- <-. right. right. right. by eapply run_files_error.
    + intros H. injection H as <- <-. right. right. left. eauto.
    + intros H. injection H as <- <-. right. right. left. eauto.
    + destruct (run_files env flags _ files w) as [[[u' [e|]]|p] w1] eqn:HR;
        simpl; intros H; try done.
      injection H as <- <-. right. right. right. by eapply run_files_error.
  - intros u files HA HD. unfold Run. rewrite Hdir. simpl.
    unfold bind, get_trace, LoadHistory. simpl. by rewrite HD, HA.
Qed.

(** The run over [two_files] that ends on the failed write. *)
Lemma main_abort_causes_witness :
  inputFile (dir_flags false) = "" /\
  fst (main env_disk_full (dir_flags false) world0) = Return (Fatal "disk full") /\
  exists w1, ioutil_WriteFile env_disk_full (trace w1) = Some "disk full"
             /\ snd (main env_disk_full (dir_flags false) world0)
                = after_save w1 (history_json w1).
Proof.
  split; [reflexivity|].
  assert (Hr : fst (main env_disk_full (dir_flags false) world0) = Return (Fatal "disk full"))
    by (vm_compute; reflexivity).
  split; [exact Hr|].
  destruct (main env_disk_full (dir_flags false) world0) as [r w'] eqn:Hm.
  simpl in Hr. subst r.
  destruct (proj1 (main_abort_causes env_disk_full (dir_flags false) world0 eq_refl) _ _ Hm)
    as [(e & He & _) | [(He & _) | [([He | He] & _) | (w1 & Hw & Hw' & _)]]];
    try discriminate.
  exists w1. by split.
Defined.

(** ** Running the batch again *)




(** However the loop ends, the files it has processed are the first of
    those that are eligible and not skipped by the history it started with. *)
Lemma run_files_calls_prefix env flags files u w :
  NoDup (map fiName files) ->
  exists evs,
    trace (snd (run_files env flags u files w)) = trace w ++ evs /\
    file_calls evs
      `prefix_of` map (fun fi => path_Join env (inputDirectory flags) (fiName fi))
            (List.filter (fun fi => eligible fi
                                    && negb (shouldSkip (FilenameHistory u) (fiName fi)
                                                        (retry flags)))
                         files).
Proof.
  revert u w. induction files as [|fi rest IH]; intros u w Hnd.
  { exists []. by rewrite app_nil_r. }
  apply NoDup_cons in Hnd as [Hnotin Hnd]. simpl List.filter.
  destruct (eligible fi) eqn:He;
    [destruct (shouldSkip (FilenameHistory u) (fiName fi) (retry flags)) eqn:Hs|].
  - rewrite run_files_pass by auto. simpl. by apply IH.
  - rewrite (run_files_process _ _ _ _ _ _ He Hs). cbn [andb negb].
    destruct (UploadFile_events env flags
                (path_Join env (inputDirectory flags) (fiName fi)) w) as (evs & Ht & Hin & _).
    destruct (UploadFile _ _ _ w) as [[err|msg] w1]; cbn [fst snd] in *; cbv beta iota zeta.
    + destruct (ioutil_WriteFile env (trace w1)) as [e0|] eqn:Hw; cbv beta iota zeta.
      * exists ((EvCallUploadFile (path_Join env (inputDirectory flags) (fiName fi)) :: evs)
                ++ [EvSaveHistory]).
        split; [simpl; rewrite Ht; by rewrite <- !app_assoc|].
        rewrite file_calls_app.
        change (file_calls (EvCallUploadFile ?f :: evs)) with (f :: file_calls evs).
        rewrite (file_calls_inner evs Hin). simpl. apply prefix_cons, prefix_nil.
      * destruct (IH (record env u (fiName fi) err w1)
                     (after_save w1 (Document (FilenameHistory
                                                 (record env u (fiName fi) err w1)))) Hnd)
          as (evs2 & Ht2 & Hcalls).
        exists ((EvCallUploadFile (path_Join env (inputDirectory flags) (fiName fi)) :: evs)
                ++ [EvSaveHistory] ++ evs2).
        split.
        { rewrite Ht2. simpl. rewrite Ht. by rewrite <- !app_assoc. }
        rewrite !file_calls_app.
        change (file_calls (EvCallUploadFile ?f :: evs)) with (f :: file_calls evs).
        rewrite (file_calls_inner evs Hin). simpl. apply prefix_cons.
        erewrite filter_ext_in; [exact Hcalls|].
        intros fi' Hfi'. simpl. f_equal. f_equal.
        unfold shouldSkip, record. simpl. rewrite lookup_insert_ne; [done|].
        intros Heq. apply Hnotin. rewrite Heq. apply list_elem_of_fmap_2.
        by apply list_elem_of_In.
    + exists (EvCallUploadFile (path_Join env (inputDirectory flags) (fiName fi)) :: evs).
      split; [done|].
      change (file_calls (EvCallUploadFile ?f :: evs)) with (f :: file_calls evs).
      rewrite (file_calls_inner evs Hin). apply prefix_cons, prefix_nil.
  - rewrite run_files_pass by auto. simpl. by apply IH.
Qed.

(** In directory mode, with the directory read: [Run] loads the history
    and enters the loop. *)
Lemma Run_directory env flags u w files :
  inputFile flags = "" ->
  ioutil_ReadDir env (trace w) (inputDirectory flags) = Ok files ->
  Run env flags u w =
    match history_json w with
    | Absent => run_files env flags u files w
    | Unreadable msg => (Return (u, Some msg), w)
    | Corrupt msg => (Return (u, Some msg), w)
    | Document m => run_files env flags (mkUploader (m ∪ FilenameHistory u)) files w
    end.
Proof.
  intros Hdir HD. unfold Run. rewrite Hdir. simpl.
  unfold bind, get_trace, LoadHistory, ret. simpl. rewrite HD.
  by destruct (history_json w).
Qed.





(** * Further properties *)

(** ** The track analyzer, further *)

(** X1.  The analysis only depends on the points of the track in scan
    order: the name of the track, the division into segments and empty
    segments make no difference. *)
Theorem ToTrackBounds_flat (t1 t2 : gpx.GPXTrack) :
  all_points t1 = all_points t2 -> ToTrackBounds t1 = ToTrackBounds t2.
Proof.
  intros H. unfold ToTrackBounds. by rewrite !scan_flat, H.
Qed.

(** The four points of [tie_track] in one segment after an empty one. *)
Lemma ToTrackBounds_flat_witness :
  ToTrackBounds tie_track
  = ToTrackBounds (gpx.mkTrack "one segment"
                     [gpx.mkSegment [];
                      gpx.mkSegment [pt (Some 100%Z) 1%Z; pt (Some 200%Z) 2%Z;
                                     pt (Some 200%Z) 3%Z; pt (Some 150%Z) 4%Z]]).
Proof. apply ToTrackBounds_flat. reflexivity. Defined.

(** X2.  When the analysis succeeds, Start is the cell of the first point,
    End the cell of the last point, and Highest a cell in between: their
    allocation numbers are 0, the number of points less one, and the index
    of Highest, and each holds the point at that index. *)
Theorem ToTrackBounds_order (t : gpx.GPXTrack) (tb : TrackBounds) :
  ToTrackBounds t = Ok tb ->
  exists s h e,
    Start tb = Some s /\ Highest tb = Some h /\ End_ tb = Some e /\
    addr s = 0%nat /\ addr e = (length (all_points t) - 1)%nat /\
    (addr s <= addr h <= addr e)%nat /\
    all_points t !! addr s = Some (deref s) /\
    all_points t !! addr h = Some (deref h) /\
    all_points t !! addr e = Some (deref e).
Proof.
  unfold ToTrackBounds. intros H.
  destruct (scan_scanned t) as (_ & _ & Hcons). simpl in *.
  destruct (Highest (scan t)) as [h|] eqn:HH; [|done].
  destruct (negb _); [done|]. destruct (time.IsZero _); [done|]. injection H as <-.
  destruct (all_points t) as [|p0 ps] eqn:Hps.
  { apply Highest_scan_None in Hps. congruence. }
  destruct (Hcons p0 eq_refl) as (h' & HS & HH' & (pl & HE & Hpl) & Hh & _).
  assert (h' = h) by congruence. subst h'.
  exists (mkPtr 0 p0), h, (mkPtr (length (p0 :: ps) - 1) pl).
  pose proof (lookup_lt_Some _ _ _ Hh) as Hlt.
  repeat split; try done; simpl in *; lia.
Qed.

Lemma ToTrackBounds_order_witness :
  exists s h e,
    Highest (scan tie_track) = Some h /\ Start (scan tie_track) = Some s /\
    End_ (scan tie_track) = Some e /\
    addr s = 0%nat /\ addr h = 1%nat /\ addr e = 3%nat.
Proof.
  destruct (ToTrackBounds_order tie_track (scan tie_track) eq_refl)
    as (s & h & e & HS & HH & HE & Hs & He & _).
  exists s, h, e.
  split; [exact HH|]. split; [exact HS|]. split; [exact HE|]. split; [exact Hs|].
  split; [vm_compute in HH; by injection HH as <- | rewrite He; reflexivity].
Defined.

(** ** The earlier revision *)

Lemma scan_tracks_flat st ts :
  rev0.scan_tracks st ts = scan_segments st (concat (map gpx.Segments ts)).
Proof.
  revert st. induction ts as [|t ts IH]; intros st; simpl; [done|].
  rewrite IH. rewrite !scan_segments_flat, map_app, concat_app.
  by rewrite scan_points_app.
Qed.

(** X3.  The analysis of a whole document in the earlier revision is the
    analysis of [main.go] on one track made of all segments of all tracks
    of the document, in order; on a document of one track it is the analysis
    of that track. *)
Theorem rev0_ToTrackBounds_joined (g : gpx.GPX) (name : string) :
  rev0.ToTrackBounds g
  = ToTrackBounds (gpx.mkTrack name (concat (map gpx.Segments (gpx.Tracks g)))) /\
  (forall t, gpx.Tracks g = [t] -> rev0.ToTrackBounds g = ToTrackBounds t).
Proof.
  assert (H : forall segs n,
             fst (scan_segments (empty_bounds, 0%nat) segs) = scan (gpx.mkTrack n segs)) by done.
  split.
  - unfold rev0.ToTrackBounds, rev0.scan, ToTrackBounds. by rewrite scan_tracks_flat, (H _ name).
  - intros t Ht. unfold rev0.ToTrackBounds, rev0.scan, ToTrackBounds.
    rewrite Ht. simpl. by rewrite (H _ (gpx.Name t)).
Qed.

(** ** One track, further *)

(** All the ways through [UploadTrack], each with its trace. *)
Ltac through_UploadTrack :=
  unfold track_events, UploadTrack, matchPeak, bind, emit, ret, panic, client_FindPeaks,
    client_ListAscents, client_AddAscent, Now, events_since;
  repeat (match goal with
          | |- context [match ?x with _ => _ end] =>
              lazymatch x with
              | context [match _ with _ => _ end] => fail
              | _ => destruct x eqn:?
              end
          end; cbn [fst snd trace]);
  rewrite <- ?app_assoc, ?drop_app_length; cbn [app].

Lemma appends_UploadTrack_summit env flags t :
  appends (submits_summit env t) (UploadTrack env flags t).
Proof.
  unfold UploadTrack. repeat appends_step; try (by apply appends_matchPeak); try done.
  match goal with H : ToTrackBounds t = Ok _ |- _ =>
    pose proof H as HT;
    destruct (ToTrackBounds_Ok _ _ H) as (s & h & e & HS & HH & HE & _ & _ & Hh & Hspec & Hz) end.
  simplify_eq. simpl.
  match goal with H : Highest ?tb = Some ?p |- _ => exists tb, p end.
  destruct Hspec as (q & Hq & Hpres & _). rewrite Hh in Hq. injection Hq as <-.
  repeat split; done.
Qed.

Lemma Sub_fits t u : time.fits (t - u) -> time.Sub t u = (t - u)%Z.
Proof.
  unfold time.fits, time.Sub. intros [Hlo Hhi].
  destruct (Z.ltb_spec (t - u) time.minDuration); [lia|].
  destruct (Z.ltb_spec time.maxDuration (t - u)); [lia|done].
Qed.

(** X4.  Every ascent [UploadTrack] submits for a track holds that track
    alone as its geometry and is dated at the timestamp of the point the
    analysis returned as Highest, a point of the track that carries an
    elevation and whose time is not the zero time.  Its time up is
    [Time.Sub] of that date and the start of the track's time bounds, its
    time down [Time.Sub] of the end of the time bounds and that date; when
    neither difference saturates they add up to the span of the time
    bounds. *)
Theorem UploadTrack_ascent_content
    (env : Env) (flags : Flags) (t : gpx.GPXTrack) (w : World) (a : peakbagger.Ascent) :
  In (EvAddAscent a) (track_events env flags t w) ->
  (exists tb h,
     ToTrackBounds t = Ok tb /\ Highest tb = Some h /\
     all_points t !! addr h = Some (deref h) /\ present (deref h) /\
     peakbagger.Date a = gpx.Timestamp (deref h)) /\
  peakbagger.Gpx a = gpx.mkGPX [t] /\
  time.IsZero (peakbagger.Date a) = false /\
  peakbagger.TimeUp a
    = time.Sub (peakbagger.Date a) (gpx.StartTime (gpx_TimeBounds env t)) /\
  peakbagger.TimeDown a
    = time.Sub (gpx.EndTime (gpx_TimeBounds env t)) (peakbagger.Date a) /\
  (time.fits (peakbagger.Date a - gpx.StartTime (gpx_TimeBounds env t)) ->
   time.fits (gpx.EndTime (gpx_TimeBounds env t) - peakbagger.Date a) ->
   (peakbagger.TimeUp a + peakbagger.TimeDown a
    = gpx.EndTime (gpx_TimeBounds env t) - gpx.StartTime (gpx_TimeBounds env t))%Z).
Proof.
  intros Hin. unfold track_events in Hin.
  destruct (appends_UploadTrack_summit env flags t w) as (evs & Ht & HP & _).
  rewrite (events_since_app _ _ _ Ht) in Hin. apply list_elem_of_In in Hin.
  rewrite Forall_forall in HP. specialize (HP _ Hin). simpl in HP.
  destruct HP as (tb & h & HT & HH & Hh & Hpres & Hg & Hd & Hz & Hup & Hdown).
  split; [by exists tb, h|]. split; [done|]. split; [done|]. split; [done|]. split; [done|].
  intros Hf1 Hf2. rewrite Hup, Hdown, (Sub_fits _ _ Hf1), (Sub_fits _ _ Hf2). lia.
Qed.

(** The upload of [open_ended_track]: dated at time 2, the time of its
    one point with an elevation; 1 up and 1 down. *)
Lemma UploadTrack_ascent_content_witness :
  exists a,
    In (EvAddAscent a) (track_events env_one_peak (dir_flags false) open_ended_track world0) /\
    peakbagger.Date a = 2%Z /\ peakbagger.Gpx a = gpx.mkGPX [open_ended_track] /\
    (peakbagger.TimeUp a + peakbagger.TimeDown a = 2)%Z.
Proof.
  set (a := buildAscent env_one_peak open_ended_track (pt None 1%Z) (pt (Some 2000%Z) 2%Z)
                        (pt None 3%Z) rainier 1003%Z).
  assert (Hin : In (EvAddAscent a)
                   (track_events env_one_peak (dir_flags false) open_ended_track world0)).
  { vm_compute. tauto. }
  exists a. split; [exact Hin|].
  destruct (UploadTrack_ascent_content _ _ _ _ _ Hin) as (_ & Hg & _ & _ & _ & Hsum).
  split; [reflexivity|]. split; [exact Hg|].
  rewrite Hsum; [reflexivity | |]; unfold time.fits; vm_compute; split; discriminate.
Defined.

(** X5.  One call of [UploadTrack] submits at most one ascent; none in a
    dry run; exactly one when it returns without error outside a dry run;
    and when it returns an error after a submission, the error is that of
    the submission. *)
Theorem UploadTrack_submits_at_most_once
    (env : Env) (flags : Flags) (t : gpx.GPXTrack) (w : World) :
  (length (submissions (track_events env flags t w)) <= 1)%nat /\
  (dryRun flags = true -> submissions (track_events env flags t w) = []) /\
  (dryRun flags = false -> fst (UploadTrack env flags t w) = Return None ->
     length (submissions (track_events env flags t w)) = 1%nat) /\
  (forall e, fst (UploadTrack env flags t w) = Return (Some e) ->
     submissions (track_events env flags t w) <> [] ->
     exists msg, e = "failed to add ascent " +:+ msg).
Proof.
  split; [|split; [|split]].
  - through_UploadTrack; simpl; lia.
  - intros Hdry. through_UploadTrack; simpl; congruence.
  - intros Hdry. through_UploadTrack; simpl; congruence.
  - intros e. through_UploadTrack; simpl; intros He Hs; try done.
    all: injection He as <-; eauto.
Qed.

(** X6.  [UploadTrack] submits an ascent only after the list of recorded
    ascents, asked for in the same call, did not hold an ascent of that peak
    at that date. *)
Theorem UploadTrack_never_duplicates
    (env : Env) (flags : Flags) (t : gpx.GPXTrack) (w : World) (a : peakbagger.Ascent) :
  In (EvAddAscent a) (track_events env flags t w) ->
  exists pre post ascents,
    track_events env flags t w = pre ++ EvListAscents :: post /\
    ListAscents env (trace w ++ pre) = Ok ascents /\
    peakbagger.Has ascents (peakbagger.AscentPeakID a) (peakbagger.Date a) = false.
Proof.
  through_UploadTrack; simpl; intros Hin; try (by intuition discriminate).
  all: destruct Hin as [Hin|[Hin|[Hin|[Hin|Hin]]]]; try discriminate; try done;
    try (destruct Hin as [Hin|Hin]; try discriminate; try done).
  all: injection Hin as <-.
  all: rewrite <- ?app_assoc in *; cbn [app] in *.
  all: first [ by eexists [_; _], [_], _; split; [reflexivity|]; split; [eassumption|]
             | by eexists [_; _; _], [_], _; split; [reflexivity|]; split; [eassumption|] ].
Qed.

(** The upload of [open_ended_track], the list of recorded ascents being
    empty. *)
Lemma UploadTrack_never_duplicates_witness :
  exists a pre post,
    In (EvAddAscent a) (track_events env_one_peak (dir_flags false) open_ended_track world0) /\
    track_events env_one_peak (dir_flags false) open_ended_track world0
      = pre ++ EvListAscents :: post /\
    peakbagger.Has [] (peakbagger.AscentPeakID a) (peakbagger.Date a) = false.
Proof.
  set (a := buildAscent env_one_peak open_ended_track (pt None 1%Z) (pt (Some 2000%Z) 2%Z)
                        (pt None 3%Z) rainier 1003%Z).
  assert (Hin : In (EvAddAscent a)
                   (track_events env_one_peak (dir_flags false) open_ended_track world0)).
  { vm_compute. tauto. }
  destruct (UploadTrack_never_duplicates _ _ _ _ _ Hin) as (pre & post & ascents & He & _ & _).
  exists a, pre, post. split; [exact Hin|]. split; [exact He | reflexivity].
Defined.

(** X7.  A track the analysis rejects never reaches the catalog:
    [UploadTrack] returns the error of the analysis, one of three, behind
    "highest point", and has done nothing but leave its mark. *)
Theorem UploadTrack_invalid_track
    (env : Env) (flags : Flags) (t : gpx.GPXTrack) (w : World) (e : string) :
  ToTrackBounds t = Err e ->
  UploadTrack env flags t w
    = (Return (Some ("highest point " +:+ e)),
       mkWorld (trace w ++ [EvCallUploadTrack (gpx.Name t)]) (tmpfiles w) (history_json w)) /\
  (e = "missing points" \/ e = "missing elevation" \/ e = "missing timestamp").
Proof.
  intros H. split.
  - unfold UploadTrack, bind, emit, ret. simpl. by rewrite H.
  - unfold ToTrackBounds in H. destruct (Highest (scan t)); [|injection H as <-; auto].
    destruct (negb _); [injection H as <-; auto|].
    destruct (time.IsZero _); [injection H as <-; auto | done].
Qed.

Lemma UploadTrack_invalid_track_witness :
  UploadTrack env_one_peak (dir_flags false) basin_track world0
    = (Return (Some "highest point missing elevation"),
       mkWorld [EvCallUploadTrack "basin"] ∅ Absent).
Proof.
  exact (proj1 (UploadTrack_invalid_track env_one_peak (dir_flags false) basin_track world0
                  "missing elevation" eq_refl)).
Defined.

(** ** One file, further *)

(** X8.  A file whose extension is written in ASCII and, in lower case,
    is no key of the format table is refused before anything is created:
    [UploadFile] returns the error of [ToGPX], no temporary file exists that
    did not exist before, gpsbabel is not run and no track is attempted. *)
Theorem UploadFile_unknown_extension
    (env : Env) (flags : Flags) (filename : string) (w : World) :
  ascii_only (Ext filename) = true ->
  extToGPSBabelFormat !! ToLower (Ext filename) = None ->
  UploadFile env flags filename w
    = (Return (Some ("ToGPX failed "
                     +:+ ("file extension " +:+ Quote env (ToLower (Ext filename))
                          +:+ " is not not a known GPS format"))),
       mkWorld (trace w ++ [EvCallUploadFile filename]) (tmpfiles w) (history_json w)).
Proof.
  intros _ H. unfold UploadFile, ToGPX, bind, emit, ret. simpl. by rewrite H.
Qed.

Lemma UploadFile_unknown_extension_witness :
  UploadFile env_one_peak (dir_flags false) "tracks/notes.TXT" world0
    = (Return (Some "ToGPX failed file extension '.txt' is not not a known GPS format"),
       mkWorld [EvCallUploadFile "tracks/notes.TXT"] ∅ Absent).
Proof.
  exact (UploadFile_unknown_extension env_one_peak (dir_flags false) "tracks/notes.TXT"
           world0 eq_refl eq_refl).
Defined.

(** X9.  [ToGPX] matches the extension without regard to case: when the
    extension in lower case has the format [format], the temporary file is
    created and gpsbabel succeeds, [ToGPX] returns the name of the temporary
    file, that file exists, and gpsbabel was run once, with that format,
    from the input to that file. *)
Theorem ToGPX_converts
    (env : Env) (input : string) (w : World) (format name : string) :
  extToGPSBabelFormat !! ToLower (Ext input) = Some format ->
  ioutil_TempFile env (trace w) = (Some name, None) ->
  gpsbabel_Run env (trace w ++ [EvTempFile (Some name)]) format input name = None ->
  fst (ToGPX env input w) = Return (name, None) /\
  events_since w (snd (ToGPX env input w))
    = [EvTempFile (Some name); EvGpsbabel format input name] /\
  name ∈ tmpfiles (snd (ToGPX env input w)) /\
  history_json (snd (ToGPX env input w)) = history_json w.
Proof.
  intros Hf Ht Hg. unfold ToGPX, bind, TempFile, cmd_Run, ret, events_since.
  rewrite Hf, Ht. simpl. rewrite Hg. simpl.
  split; [done|]. split; [|split; [apply elem_of_union_l; by apply elem_of_singleton|done]].
  by rewrite <- app_assoc, drop_app_length.
Qed.

Lemma ToGPX_converts_witness :
  fst (ToGPX env_one_peak "tracks/Rainier.GPX" world0) = Return (tmp_gpx, None) /\
  events_since world0 (snd (ToGPX env_one_peak "tracks/Rainier.GPX" world0))
    = [EvTempFile (Some tmp_gpx); EvGpsbabel "gpx" "tracks/Rainier.GPX" tmp_gpx].
Proof.
  destruct (ToGPX_converts env_one_peak "tracks/Rainier.GPX" world0 "gpx" tmp_gpx
              eq_refl eq_refl eq_refl) as (Hr & Hev & _).
  by split.
Defined.

(** X10.  When the converted file cannot be read, or its bytes cannot be
    parsed, [UploadFile] returns that error, attempts no track, and its
    deferred [os.Remove] has deleted the converted file. *)
Theorem UploadFile_read_or_parse_failure
    (env : Env) (flags : Flags) (filename : string) (w : World) (gf : string) (w1 : World) :
  ToGPX env filename (snd (emit (EvCallUploadFile filename) w)) = (Return (gf, None), w1) ->
  (forall e, ioutil_ReadFile env (trace w1) gf = Err e ->
     UploadFile env flags filename w
       = (Return (Some ("read gpx file " +:+ e)), after_read_and_remove gf w1)) /\
  (forall b e, ioutil_ReadFile env (trace w1) gf = Ok b -> gpx_ParseBytes env b = Err e ->
     UploadFile env flags filename w
       = (Return (Some ("parse gpx bytes " +:+ e)), after_read_and_remove gf w1)) /\
  gf ∉ tmpfiles (after_read_and_remove gf w1).
Proof.
  intros HG.
  assert (Hrun : UploadFile env flags filename w
                 = defer (os_Remove gf)
                     (bind (ReadFile env gf)
                        (fun b => match b with
                                  | Err e => ret (Some ("read gpx file " +:+ e))
                                  | Ok b =>
                                      match gpx_ParseBytes env b with
                                      | Err e => ret (Some ("parse gpx bytes " +:+ e))
                                      | Ok g => upload_tracks env flags (gpx.Tracks g) None
                                      end
                                  end)) w1).
  { unfold UploadFile. unfold bind at 1. unfold emit in *. cbv beta iota.
    unfold bind at 1. simpl in HG. by rewrite HG. }
  rewrite Hrun. unfold defer, bind, ReadFile, os_Remove, ret, after_read_and_remove. simpl.
  split; [|split].
  - intros e ->. simpl. by rewrite <- app_assoc.
  - intros b e -> ->. simpl. by rewrite <- app_assoc.
  - simpl. intros [_ Hn]%elem_of_difference. apply Hn. by apply elem_of_singleton.
Qed.

Lemma UploadFile_read_or_parse_failure_witness :
  fst (UploadFile (with_unreadable_files "permission denied" env_one_peak)
                  (dir_flags false) "tracks/a.gpx" world0)
    = Return (Some "read gpx file permission denied") /\
  trace (snd (UploadFile (with_unreadable_files "permission denied" env_one_peak)
                         (dir_flags false) "tracks/a.gpx" world0))
    = [EvCallUploadFile "tracks/a.gpx"; EvTempFile (Some tmp_gpx);
       EvGpsbabel "gpx" "tracks/a.gpx" tmp_gpx; EvReadFile tmp_gpx; EvRemove tmp_gpx].
Proof.
  pose proof (proj1 (UploadFile_read_or_parse_failure
                       (with_unreadable_files "permission denied" env_one_peak)
                       (dir_flags false) "tracks/a.gpx" world0 tmp_gpx _ eq_refl)
                    "permission denied" eq_refl) as H.
  rewrite H. split; reflexivity.
Defined.

(** X11.  A document without tracks is a success: [UploadFile] returns no
    error, having attempted no track and contacted no catalog, and the
    converted file is deleted. *)
Theorem UploadFile_no_tracks
    (env : Env) (flags : Flags) (filename : string) (w : World) (gf : string) (w1 : World)
    (b : string) (g : gpx.GPX) :
  ToGPX env filename (snd (emit (EvCallUploadFile filename) w)) = (Return (gf, None), w1) ->
  ioutil_ReadFile env (trace w1) gf = Ok b ->
  gpx_ParseBytes env b = Ok g ->
  gpx.Tracks g = [] ->
  UploadFile env flags filename w = (Return None, after_read_and_remove gf w1).
Proof.
  intros HG HR HP HT. unfold UploadFile. unfold bind at 1. unfold emit in *. cbv beta iota.
  unfold bind at 1. simpl in HG. rewrite HG.
  unfold defer, bind, ReadFile, os_Remove, ret, after_read_and_remove. simpl.
  rewrite HR, HP, HT. simpl. by rewrite <- app_assoc.
Qed.

Lemma UploadFile_no_tracks_witness :
  fst (UploadFile env_twins_stable (dir_flags false) "tracks/empty.gpx" world0) = Return None /\
  trace (snd (UploadFile env_twins_stable (dir_flags false) "tracks/empty.gpx" world0))
    = [EvCallUploadFile "tracks/empty.gpx"; EvTempFile (Some tmp_gpx);
       EvGpsbabel "gpx" "tracks/empty.gpx" tmp_gpx; EvReadFile tmp_gpx; EvRemove tmp_gpx].
Proof.
  rewrite (UploadFile_no_tracks env_twins_stable (dir_flags false) "tracks/empty.gpx" world0
             tmp_gpx _ "<gpx/>" (gpx.mkGPX []) eq_refl eq_refl eq_refl eq_refl).
  split; reflexivity.
Defined.

Lemma join_errors_None acc msgs : join_errors acc msgs = None <-> acc = None /\ msgs = [].
Proof.
  revert acc. induction msgs as [|m msgs IH]; intros acc; simpl.
  - split; [by intros -> | by intros [-> _]].
  - rewrite IH. split; [|by intros [_ ?]]. intros [H _]. by destruct acc.
Qed.

Lemma track_failures_nil env flags ts w errs w' :
  attempts env flags ts w errs w' ->
  track_failures env ts errs = [] <-> Forall (fun e => e = None) errs.
Proof.
  induction 1 as [|t ts w e w1 es w2 Hr _ IH]; simpl; [by split|].
  destruct e as [msg|]; simpl.
  - split; [done|]. by intros [? ?]%Forall_cons.
  - rewrite IH. split; [by constructor | by intros [_ ?]%Forall_cons].
Qed.

(** X12.  The loop over the tracks of a file returns no error exactly when
    every track was uploaded without error: one failed track makes the
    file a failure, whatever the other tracks did. *)
Theorem upload_tracks_nil_iff (env : Env) (flags : Flags) (ts : list gpx.GPXTrack) (w : World) :
  exists errs w',
    attempts env flags ts w errs w' /\
    snd (upload_tracks env flags ts None w) = w' /\
    (fst (upload_tracks env flags ts None w) = Return None
     <-> Forall (fun e => e = None) errs).
Proof.
  destruct (upload_tracks_attempts env flags ts None w) as (errs & w' & Hatt & Hres & _).
  exists errs, w'. rewrite Hres. simpl. split; [done|]. split; [done|].
  rewrite <- (track_failures_nil _ _ _ _ _ _ Hatt). split.
  - intros H. injection H as H. by apply join_errors_None in H as [_ ?].
  - intros ->. done.
Qed.

(** X13.  The earlier revision handles documents of exactly one track: on
    any other number of tracks, none included, [Upload] returns "too many
    tracks", contacts no catalog, and the converted file is deleted. *)
Theorem rev0_Upload_track_count
    (env : Env) (flags : Flags) (filename : string) (w : World) (gf : string) (w1 : World)
    (b : string) (g : gpx.GPX) :
  ToGPX env filename w = (Return (gf, None), w1) ->
  ioutil_ReadFile env (trace w1) gf = Ok b ->
  gpx_ParseBytes env b = Ok g ->
  length (gpx.Tracks g) <> 1%nat ->
  rev0.Upload env flags filename w
    = (Return (Some "too many tracks"), after_read_and_remove gf w1).
Proof.
  intros HG HR HP HT. unfold rev0.Upload. unfold bind at 1. rewrite HG.
  unfold defer, bind, ReadFile, os_Remove, ret, after_read_and_remove. simpl.
  rewrite HR, HP. apply Nat.eqb_neq in HT. rewrite HT. simpl. by rewrite <- app_assoc.
Qed.

(** A document without any track is refused as having too many. *)
Lemma rev0_Upload_track_count_witness :
  fst (rev0.Upload env_twins_stable (dir_flags false) "tracks/empty.gpx" world0)
    = Return (Some "too many tracks") /\
  trace (snd (rev0.Upload env_twins_stable (dir_flags false) "tracks/empty.gpx" world0))
    = [EvTempFile (Some tmp_gpx); EvGpsbabel "gpx" "tracks/empty.gpx" tmp_gpx;
       EvReadFile tmp_gpx; EvRemove tmp_gpx].
Proof.
  rewrite (rev0_Upload_track_count env_twins_stable (dir_flags false) "tracks/empty.gpx" world0
             tmp_gpx _ "<gpx/>" (gpx.mkGPX []) eq_refl eq_refl eq_refl).
  - split; reflexivity.
  - simpl. lia.
Defined.

(** ** What the whole program adds to the trace *)

Section Grows.

Context (Q : list Event -> Prop).
Hypothesis Q_nil : Q [].
Hypothesis Q_app : forall a b, Q a -> Q b -> Q (a ++ b).

Lemma grows_ret {A : Type} (a : A) : grows Q (ret a).
Proof. intros w. exists []. by rewrite app_nil_r. Qed.

Lemma grows_silent {A : Type} (f : World -> Outcome A) : grows Q (fun w => (f w, w)).
Proof. intros w. exists []. by rewrite app_nil_r. Qed.

Lemma grows_bind {A B : Type} (m : M A) (k : A -> M B) :
  grows Q m -> (forall a, grows Q (k a)) -> grows Q (bind m k).
Proof.
  intros Hm Hk w. unfold bind. destruct (Hm w) as (evs & Ht & HQ).
  destruct (m w) as [[a|msg] w1]; simpl in *.
  - destruct (Hk a w1) as (evs' & Ht' & HQ').
    exists (evs ++ evs'). rewrite Ht', Ht, app_assoc. auto.
  - by exists evs.
Qed.

Lemma grows_defer {A : Type} (cleanup : M unit) (body : M A) :
  grows Q body -> grows Q cleanup -> grows Q (defer cleanup body).
Proof.
  intros Hb Hc w. unfold defer. destruct (Hb w) as (evs & Ht & HQ).
  destruct (body w) as [[a|msg] w1]; simpl in *;
    destruct (Hc w1) as (evs' & Ht' & HQ');
    exists (evs ++ evs'); rewrite Ht', Ht, app_assoc; auto.
Qed.

Lemma grows_one {A : Type} (m : M A) :
  (forall w, exists e, trace (snd (m w)) = trace w ++ [e] /\ Q [e]) -> grows Q m.
Proof. intros H w. destruct (H w) as (e & Ht & HQ). by exists [e]. Qed.

Variable env : Env.
Variable flags : Flags.
Hypothesis Q_outer : forall e, outer e -> Q [e].
Hypothesis Q_track : forall t, grows Q (UploadTrack env flags t).

Lemma grows_ToGPX input : grows Q (ToGPX env input).
Proof.
  unfold ToGPX. destruct (extToGPSBabelFormat !! _); [|apply grows_ret].
  apply grows_bind.
  { apply grows_one. intros w. eexists. split; [reflexivity|]. by apply Q_outer. }
  intros [[name|] err]; [|apply grows_silent].
  destruct err; [apply grows_ret|].
  apply grows_bind.
  { apply grows_one. intros w. eexists. split; [reflexivity|]. by apply Q_outer. }
  intros [e|]; apply grows_ret.
Qed.

Lemma grows_upload_tracks ts acc : grows Q (upload_tracks env flags ts acc).
Proof.
  revert acc. induction ts as [|t ts IH]; intros acc; simpl; [apply grows_ret|].
  apply grows_bind; [apply Q_track|]. intros [e|]; [destruct acc|]; apply IH.
Qed.

Lemma grows_UploadFile filename : grows Q (UploadFile env flags filename).
Proof.
  unfold UploadFile. apply grows_bind.
  { apply grows_one. intros w. eexists. split; [reflexivity|]. by apply Q_outer. }
  intros _. apply grows_bind; [apply grows_ToGPX|]. intros [gf [e|]]; [apply grows_ret|].
  apply grows_defer.
  - apply grows_bind.
    { apply grows_one. intros w. eexists. split; [reflexivity|]. by apply Q_outer. }
    intros [b|e]; [|apply grows_ret].
    destruct (gpx_ParseBytes env b); [apply grows_upload_tracks | apply grows_ret].
  - apply grows_one. intros w. eexists. split; [reflexivity|]. by apply Q_outer.
Qed.

Lemma grows_SaveHistory u : grows Q (SaveHistory env u).
Proof.
  apply grows_one. intros w. exists EvSaveHistory. unfold SaveHistory.
  split; [by destruct (ioutil_WriteFile env (trace w)) | by apply Q_outer].
Qed.

Lemma grows_run_files files u : grows Q (run_files env flags u files).
Proof.
  revert u. induction files as [|fi rest IH]; intros u; simpl; [apply grows_ret|].
  destruct (IsDir fi); [apply IH|].
  destruct (extToGPSBabelFormat !! _); [|apply IH].
  destruct (shouldSkip _ _ _); [apply IH|].
  apply grows_bind; [apply grows_UploadFile|]. intros err.
  apply grows_bind; [apply grows_silent|]. intros now.
  apply grows_bind; [apply grows_SaveHistory|]. intros [e|]; [apply grows_ret | apply IH].
Qed.

Lemma grows_Run u : grows Q (Run env flags u).
Proof.
  unfold Run. destruct (negb _).
  - apply grows_bind; [apply grows_UploadFile | intros; apply grows_ret].
  - apply grows_bind; [apply grows_silent|]. intros tr.
    destruct (ioutil_ReadDir env tr _); [|apply grows_ret].
    apply grows_bind.
    { intros w. exists []. rewrite app_nil_r. split; [|done].
      unfold LoadHistory. by destruct (history_json w). }
    intros [u' [e|]]; [apply grows_ret | apply grows_run_files].
Qed.

Lemma grows_main : grows Q (main env flags).
Proof.
  unfold main, NewUploader. apply grows_bind.
  - apply grows_bind; [apply grows_silent|]. intros tr. destruct (Login env tr); apply grows_ret.
  - intros [u|e]; [|apply grows_ret].
    apply grows_bind; [apply grows_Run|]. intros [u' [e|]]; apply grows_ret.
Qed.

End Grows.

Lemma submissions_app a b : submissions (a ++ b) = submissions a ++ submissions b.
Proof. apply omap_app. Qed.

Lemma submissions_outer e : outer e -> submissions [e] = [].
Proof. by destruct e. Qed.

(** [UploadTrack] leaves one mark and submits at most once, not at all in
    a dry run. *)
Lemma UploadTrack_marks_and_submits env flags t w :
  exists evs,
    trace (snd (UploadTrack env flags t w)) = trace w ++ evs /\
    track_events env flags t w = evs /\
    length (track_calls evs) = 1%nat /\
    (length (submissions evs) <= 1)%nat /\
    (dryRun flags = true -> submissions evs = []).
Proof.
  destruct (UploadTrack_events env flags t w) as (evs & Ht & Hq & _).
  exists (EvCallUploadTrack (gpx.Name t) :: evs).
  assert (He : track_events env flags t w = EvCallUploadTrack (gpx.Name t) :: evs)
    by (by apply events_since_app).
  split; [done|]. split; [done|]. split; [|split].
  - change (track_calls (EvCallUploadTrack ?n :: evs)) with (n :: track_calls evs).
    by rewrite (track_calls_quiet evs Hq).
  - rewrite <- He. clear. through_UploadTrack; simpl; lia.
  - intros Hdry. rewrite <- He. clear -Hdry. through_UploadTrack; simpl; congruence.
Qed.

(** X14.  In a dry run the whole program submits no ascent: whatever the
    directory, the history and the catalog hold, [AddAscent] is never
    called. *)
Theorem main_dry_run_never_submits (env : Env) (flags : Flags) (w : World) :
  dryRun flags = true ->
  submissions (events_since w (snd (main env flags w))) = [].
Proof.
  intros Hdry.
  destruct (grows_main (fun evs => submissions evs = []) eq_refl
              (fun a b Ha Hb => eq_trans (submissions_app a b)
                                  (eq_trans (f_equal2 app Ha Hb) eq_refl))
              env flags submissions_outer
              (fun t w0 =>
                 match UploadTrack_marks_and_submits env flags t w0 with
                 | ex_intro _ evs (conj Ht (conj _ (conj _ (conj _ Hd)))) =>
                     ex_intro _ evs (conj Ht (Hd Hdry))
                 end) w) as (evs & Ht & HQ).
  by rewrite (events_since_app _ _ _ Ht).
Qed.

(** A dry run over [mixed_files]: two files are processed, nothing is
    submitted. *)
Lemma main_dry_run_never_submits_witness :
  file_calls (events_since world0 (snd (main env_kml_fails (mkFlags "" "tracks" true false)
                                             world0)))
    = ["tracks/a.gpx"; "tracks/b.kml"] /\
  submissions (events_since world0 (snd (main env_kml_fails (mkFlags "" "tracks" true false)
                                              world0))) = [].
Proof.
  split; [vm_compute; reflexivity|].
  exact (main_dry_run_never_submits env_kml_fails (mkFlags "" "tracks" true false) world0
           eq_refl).
Defined.

(** X15.  The whole program submits at most one ascent per track it
    attempts: the ascents handed to [AddAscent] are never more than the
    calls of [UploadTrack]. *)
Theorem main_one_submission_per_track (env : Env) (flags : Flags) (w : World) :
  (length (submissions (events_since w (snd (main env flags w))))
   <= length (track_calls (events_since w (snd (main env flags w)))))%nat.
Proof.
  destruct (grows_main (fun evs => (length (submissions evs) <= length (track_calls evs))%nat))
    with (env := env) (flags := flags) (w := w) as (evs & Ht & HQ).
  - simpl. lia.
  - intros a b Ha Hb. rewrite submissions_app, track_calls_app, !length_app. lia.
  - intros e He. rewrite (submissions_outer e He). simpl. lia.
  - intros t w0. destruct (UploadTrack_marks_and_submits env flags t w0)
      as (evs & Ht & _ & Hc & Hs & _).
    exists evs. split; [done|]. lia.
  - by rewrite (events_since_app _ _ _ Ht).
Qed.

(** ** The batch run, further *)

(** X16.  The keys of the format table are in lower case: a file name the
    batch loop accepts (extension looked up as it is) is converted by
    [ToGPX] (extension looked up in lower case) with the same format.  The
    batch loop is the stricter of the two: a file whose extension is
    [.GPX] is passed over by the loop, and converted as gpx by [ToGPX]. *)
Theorem batch_filter_and_ToGPX (name : string) :
  (forall format,
     extToGPSBabelFormat !! Ext name = Some format ->
     extToGPSBabelFormat !! ToLower (Ext name) = Some format) /\
  (Ext name = ".GPX" ->
     eligible (mkFileInfo name false) = false
     /\ extToGPSBabelFormat !! ToLower (Ext name) = Some "gpx").
Proof.
  split.
  - intros format H. unfold extToGPSBabelFormat in H.
    repeat (apply lookup_insert_Some in H as [[<- <-]|[_ H]]; [reflexivity|]).
    by rewrite lookup_empty in H.
  - intros H. unfold eligible. simpl. rewrite H. split; reflexivity.
Qed.

(** X17.  With a single input file [Run] goes past the history: it
    processes that file whatever the history holds, returns its error, and
    leaves the uploader and the history document as they were. *)
Theorem Run_single_file (env : Env) (flags : Flags) (u : Uploader) (w : World) :
  inputFile flags <> "" ->
  Run env flags u w
    = (match fst (UploadFile env flags (inputFile flags) w) with
       | Return err => Return (u, err)
       | Panic msg => Panic msg
       end, snd (UploadFile env flags (inputFile flags) w)) /\
  history_json (snd (Run env flags u w)) = history_json w /\
  file_calls (events_since w (snd (Run env flags u w))) = [inputFile flags].
Proof.
  intros Hne. apply String.eqb_neq in Hne. unfold Run. rewrite Hne. simpl.
  destruct (UploadFile_events env flags (inputFile flags) w) as (evs & Ht & Hin & Hh).
  unfold bind, ret.
  destruct (UploadFile env flags (inputFile flags) w) as [[err|msg] w1]; simpl in *.
  all: split; [done|]; split; [done|].
  all: rewrite (events_since_app _ _ _ Ht).
  all: change (file_calls (EvCallUploadFile ?f :: evs)) with (f :: file_calls evs).
  all: by rewrite (file_calls_inner evs Hin).
Qed.

(** The file [tracks/a.gpx], given alone, in a world whose history
    document records it as a success. *)
Lemma Run_single_file_witness :
  file_calls (events_since (snd first_run)
                (snd (Run env_kml_fails (mkFlags "tracks/a.gpx" "tracks" false false)
                          (mkUploader ∅) (snd first_run))))
    = ["tracks/a.gpx"] /\
  history_json (snd (Run env_kml_fails (mkFlags "tracks/a.gpx" "tracks" false false)
                         (mkUploader ∅) (snd first_run)))
    = history_json (snd first_run).
Proof.
  destruct (Run_single_file env_kml_fails (mkFlags "tracks/a.gpx" "tracks" false false)
              (mkUploader ∅) (snd first_run)) as (_ & Hh & Hc); [discriminate|].
  by split.
Defined.

(** X18.  In directory mode the files [Run] processes are, in the order
    of the listing and each once, the first of the eligible entries that
    the loaded history does not skip: never a directory, never a file
    whose extension is no key of the format table, never a skipped file.
    When the history document is there and cannot be read or decoded,
    [Run] returns that error and nothing is processed: no file is handed to
    [UploadFile] and the world is as it was. *)
Theorem Run_processes_listed
    (env : Env) (flags : Flags) (u : Uploader) (w : World) (files : list FileInfo) :
  inputFile flags = "" ->
  ioutil_ReadDir env (trace w) (inputDirectory flags) = Ok files ->
  NoDup (map fiName files) ->
  file_calls (events_since w (snd (Run env flags u w)))
    `prefix_of` map (fun fi => path_Join env (inputDirectory flags) (fiName fi))
                    (List.filter (fun fi => eligible fi
                                            && negb (shouldSkip (loaded_history u w) (fiName fi)
                                                                (retry flags)))
                                 files) /\
  (forall msg, history_json w = Unreadable msg \/ history_json w = Corrupt msg ->
     (exists u', Run env flags u w = (Return (u', Some msg), w))
     /\ file_calls (events_since w (snd (Run env flags u w))) = []).
Proof.
  intros Hdir HD Hnd. rewrite (Run_directory _ _ _ _ _ Hdir HD). unfold loaded_history.
  split.
  - destruct (history_json w) as [|e|e|m].
    + destruct (run_files_calls_prefix env flags files u w Hnd) as (evs & Ht & Hp).
      by rewrite (events_since_app _ _ _ Ht).
    + unfold events_since. simpl. rewrite drop_all. apply prefix_nil.
    + unfold events_since. simpl. rewrite drop_all. apply prefix_nil.
    + destruct (run_files_calls_prefix env flags files (mkUploader (m ∪ FilenameHistory u)) w
                  Hnd) as (evs & Ht & Hp).
      by rewrite (events_since_app _ _ _ Ht).
  - intros msg [-> | ->]; (split; [by exists u|]); unfold events_since; simpl;
      by rewrite drop_all.
Qed.

(** The first run over [mixed_files]: the subdirectory and the text file
    are passed over. *)
Lemma Run_processes_listed_witness :
  file_calls (events_since world0 (snd (Run env_kml_fails (dir_flags false)
                                            (mkUploader ∅) world0)))
    `prefix_of` ["tracks/a.gpx"; "tracks/b.kml"].
Proof.
  assert (Hnd : NoDup (map fiName mixed_files)).
  { apply NoDup_ListNoDup. vm_compute. repeat constructor; simpl; intuition discriminate. }
  exact (proj1 (Run_processes_listed env_kml_fails (dir_flags false) (mkUploader ∅) world0
                  mixed_files eq_refl eq_refl Hnd)).
Defined.

(** X19.  The loop never touches an entry that makes it skip a file: a
    recorded success (and, with [retry] off, any entry) is the same when
    the loop returns, with or without error, as when it started. *)
Theorem run_files_keeps_skipped_entries
    (env : Env) (flags : Flags) (files : list FileInfo) (u : Uploader) (w : World)
    (u' : Uploader) (err : error) (w' : World) (name : string) (entry : History) :
  run_files env flags u files w = (Return (u', err), w') ->
  FilenameHistory u !! name = Some entry ->
  shouldSkip (FilenameHistory u) name (retry flags) = true ->
  FilenameHistory u' !! name = Some entry.
Proof.
  revert u w. induction files as [|fi rest IH]; intros u w H Hentry Hskip.
  { by injection H as <- _ _. }
  destruct (eligible fi) eqn:He;
    [destruct (shouldSkip (FilenameHistory u) (fiName fi) (retry flags)) eqn:Hs|].
  - rewrite run_files_pass in H by auto. eauto.
  - rewrite (run_files_process _ _ _ _ _ _ He Hs) in H.
    destruct (UploadFile _ _ _ w) as [[e|msg] w1]; [|done]. cbv beta iota zeta in H.
    assert (Hne : fiName fi <> name) by (intros Heq; rewrite Heq in Hs; congruence).
    assert (Hentry' : FilenameHistory (record env u (fiName fi) e w1) !! name = Some entry)
      by (unfold record; simpl; by rewrite lookup_insert_ne).
    destruct (ioutil_WriteFile env (trace w1)) as [e0|].
    + by injection H as <- _ _.
    + eapply IH; [exact H | exact Hentry' |].
      unfold shouldSkip in *. rewrite Hentry in Hskip. by rewrite Hentry'.
  - rewrite run_files_pass in H by auto. eauto.
Qed.

(** The run with [retry] after [first_run]: the success of [a.gpx] is
    still recorded as it was. *)
Lemma run_files_keeps_skipped_entries_witness :
  exists entry u',
    FilenameHistory first_run_history !! "a.gpx" = Some entry /\ Error entry = "" /\
    fst (run_files env_kml_fails (dir_flags true) first_run_history mixed_files (snd first_run))
      = Return (u', None) /\
    FilenameHistory u' !! "a.gpx" = Some entry.
Proof.
  destruct (FilenameHistory first_run_history !! "a.gpx") as [entry|] eqn:Hentry;
    [|by vm_compute in Hentry].
  assert (Herr : Error entry = "") by (vm_compute in Hentry; by injection Hentry as <-).
  destruct (run_files env_kml_fails (dir_flags true) first_run_history mixed_files
              (snd first_run)) as [r w'] eqn:Hrun.
  assert (Hr : exists u', r = Return (u', None)).
  { change r with (fst (r, w')). rewrite <- Hrun. vm_compute. eauto. }
  destruct Hr as [u' ->].
  exists entry, u'. split; [done|]. split; [done|]. split; [done|].
  apply (run_files_keeps_skipped_entries _ _ _ _ _ _ _ _ _ _ Hrun Hentry).
  unfold shouldSkip. by rewrite Hentry, Herr.
Defined.


